(** * RCTMotionManager: tilt-stabilised video rotation

    A shallow embedding of [RCTMotionManager.m] (the Objective-C unit
    carried in [src/Video.js]): the gravity smoother, the lock-angle
    quantizer, the Free / Locked / Unlocking state machine, the spring
    animation used while unlocking, and the construction of the affine
    transform handed to the updates handler.  Of the [Video] component
    in the same file it covers the [src] object built by [render] and
    the showing of the poster.

    Numbers.  The source computes with IEEE [double]; here a [double] is
    idealised as a real number (no rounding, no NaN, no infinities, no
    signed zero), and the libm functions [fabs], [atan2], [exp2], [sin],
    [cos] are the mathematical functions they approximate.  Two places
    where the doubles of the source leave the reals for good are kept out
    of the statements: the spring factor, whose [exp2 (6 * t)] overflows
    from an elapsed time of 170.5 on, is only spoken of up to 170, and
    the angle in degrees handed to the frameless counter, which rounding
    can bring up to 360.0 itself, is bounded by 360 inclusive.

    Effects.  The instance variables of the manager, the [__block]
    variables captured by the sensor block, the CoreMotion subscription
    and the display links scheduled on the run loop are fields of one
    record that every method takes and returns.  A call of the updates
    handler is an element of the list of transforms a method returns.
    Wall-clock readings ([CACurrentMediaTime()]) are arguments. *)

From Stdlib Require Import Reals Lra Lia List Bool Arith String Ascii.
Import ListNotations.
Open Scope R_scope.

(** ** Comparisons on doubles, as booleans *)

Definition Rltb (x y : R) : bool := if Rlt_dec x y then true else false.
Definition Rleb (x y : R) : bool := if Rle_dec x y then true else false.
Definition Rgtb (x y : R) : bool := Rltb y x.

(** ** libm *)

Definition M_PI : R := PI.
Definition fabs (x : R) : R := Rabs x.
Definition exp2 (x : R) : R := Rpower 2 x.

(** [atan2 y x]: the angle of the point [(x, y)], in (-PI, PI]. *)
Definition atan2 (y x : R) : R :=
  if Rltb 0 x then atan (y / x)
  else if Rltb x 0 then
         if Rleb 0 y then atan (y / x) + PI else atan (y / x) - PI
  else if Rltb 0 y then PI / 2
  else if Rltb y 0 then - (PI / 2)
  else 0.

(** ** CoreGraphics and CoreMotion values *)

Record CGAffineTransform : Type := mkCGAffineTransform {
  a : R; b : R; c : R; d : R; tx : R; ty : R
}.

Definition CGAffineTransformMakeScale (sx sy : R) : CGAffineTransform :=
  {| a := sx; b := 0; c := 0; d := sy; tx := 0; ty := 0 |}.

(** Rotation matrix times [t]. *)
Definition CGAffineTransformRotate (t : CGAffineTransform) (angle : R)
  : CGAffineTransform :=
  {| a := cos angle * a t + sin angle * c t;
     b := cos angle * b t + sin angle * d t;
     c := - sin angle * a t + cos angle * c t;
     d := - sin angle * b t + cos angle * d t;
     tx := tx t;
     ty := ty t |}.

Record CMAcceleration : Type := mkCMAcceleration {
  acc_x : R; acc_y : R; acc_z : R
}.

Record CMDeviceMotion : Type := mkCMDeviceMotion {
  gravity : CMAcceleration
}.

(** The fit calculator is a collaborator of which only the call
    [get_scaleWithDouble:...] made after [set_fit] is visible here. *)
Record OvalCalculator : Type := mkOvalCalculator {
  get_scaleWithDouble : R -> R -> R -> R -> R -> R
}.

(** A display link is known by the number it got when it was created. *)
Definition CADisplayLink : Type := nat.

(** ** The manager *)

Definition kMaxLockAngle : R := -0.209.
Definition kMinLockAngle : R := -6.074.

Inductive RCTMotionManagerState : Type :=
| RCTMotionManagerStateFree
| RCTMotionManagerStateLocked
| RCTMotionManagerStateUnlocking.

Definition state_eqb (s1 s2 : RCTMotionManagerState) : bool :=
  match s1, s2 with
  | RCTMotionManagerStateFree, RCTMotionManagerStateFree => true
  | RCTMotionManagerStateLocked, RCTMotionManagerStateLocked => true
  | RCTMotionManagerStateUnlocking, RCTMotionManagerStateUnlocking => true
  | _, _ => false
  end.

Record RCTMotionManager : Type := mkRCTMotionManager {
  (* CMMotionManager: whether device-motion updates are being delivered *)
  deviceMotionActive : bool;
  (* whether a non-nil updates handler is installed *)
  _updatesHandler : bool;
  _scaler : OvalCalculator;
  _videoWidth : R;
  _videoHeight : R;
  _viewWidth : R;
  _viewHeight : R;
  _lockState : RCTMotionManagerState;
  _animatorSampler : option CADisplayLink;
  _animationStartTime : R;
  _initialRotationWhenUnlocking : R;
  _rotationDeltaForUnlocking : R;
  (* RCTFramelessCounter, a class that is not among the sources: the
     angles [record:] was called with since the last [resetCount],
     newest first *)
  _framelessCounter : list R;
  (* the __block variables of the sensor block *)
  lastX : R;
  lastY : R;
  (* the display links that are scheduled and not invalidated *)
  runLoop : list CADisplayLink;
  (* the number the next display link gets *)
  nextDisplayLink : CADisplayLink
}.

Definition initWithVideoWidth (calculator : OvalCalculator)
  (videoWidth videoHeight viewWidth viewHeight : R) : RCTMotionManager :=
  {| deviceMotionActive := false;
     _updatesHandler := false;
     _scaler := calculator;
     _videoWidth := videoWidth;
     _videoHeight := videoHeight;
     _viewWidth := viewWidth;
     _viewHeight := viewHeight;
     _lockState := RCTMotionManagerStateFree;
     _animatorSampler := None;
     _animationStartTime := 0;
     _initialRotationWhenUnlocking := 0;
     _rotationDeltaForUnlocking := 0;
     _framelessCounter := [];
     lastX := 0;
     lastY := 0;
     runLoop := [];
     nextDisplayLink := O |}.

Definition transformWithRotation (self : RCTMotionManager) (rotation : R)
  : CGAffineTransform :=
  let scale :=
    get_scaleWithDouble (_scaler self)
      (_viewWidth self) (_viewHeight self)
      (_videoWidth self) (_videoHeight self) rotation in
  let transform := CGAffineTransformMakeScale scale scale in
  CGAffineTransformRotate transform rotation.

Definition isFlatWithGravity (gravity : CMAcceleration) : bool :=
  Rltb (fabs (acc_x gravity)) 0.2 && Rltb (fabs (acc_y gravity)) 0.2.

Definition midLockAngle : R := (kMinLockAngle + kMaxLockAngle) / 2.

Definition rotationWithLockState (lockState : RCTMotionManagerState)
  (rawRotaton : R) : R :=
  if state_eqb lockState RCTMotionManagerStateLocked then
    if Rgtb rawRotaton kMinLockAngle && Rleb rawRotaton midLockAngle then
      kMinLockAngle
    else if Rgtb rawRotaton midLockAngle && Rltb rawRotaton kMaxLockAngle then
      kMaxLockAngle
    else rawRotaton
  else rawRotaton.

Definition minDecay : R := 0.15.

(** What the handler is called with, if there is a handler. *)
Definition callHandler (self : RCTMotionManager) (t : CGAffineTransform)
  : list CGAffineTransform :=
  if _updatesHandler self then [t] else [].

(** [startDeviceMotionUpdatesWithHandler:]: installs the handler, resets
    the two [__block] variables and subscribes the sensor block. *)
Definition startDeviceMotionUpdatesWithHandler (self : RCTMotionManager)
  (handler : bool) : RCTMotionManager :=
  {| deviceMotionActive := true;
     _updatesHandler := handler;
     _scaler := _scaler self;
     _videoWidth := _videoWidth self;
     _videoHeight := _videoHeight self;
     _viewWidth := _viewWidth self;
     _viewHeight := _viewHeight self;
     _lockState := _lockState self;
     _animatorSampler := _animatorSampler self;
     _animationStartTime := _animationStartTime self;
     _initialRotationWhenUnlocking := _initialRotationWhenUnlocking self;
     _rotationDeltaForUnlocking := _rotationDeltaForUnlocking self;
     _framelessCounter := _framelessCounter self;
     lastX := -1;
     lastY := -1;
     runLoop := runLoop self;
     nextDisplayLink := nextDisplayLink self |}.

(** The sensor block's writes: the smoothed pair, the two unlock
    variables and one record of the frameless counter. *)
Definition storeSample (self : RCTMotionManager)
  (newX newY displayRotation delta degrees : R) : RCTMotionManager :=
  {| deviceMotionActive := deviceMotionActive self;
     _updatesHandler := _updatesHandler self;
     _scaler := _scaler self;
     _videoWidth := _videoWidth self;
     _videoHeight := _videoHeight self;
     _viewWidth := _viewWidth self;
     _viewHeight := _viewHeight self;
     _lockState := _lockState self;
     _animatorSampler := _animatorSampler self;
     _animationStartTime := _animationStartTime self;
     _initialRotationWhenUnlocking := displayRotation;
     _rotationDeltaForUnlocking := delta;
     _framelessCounter := degrees :: _framelessCounter self;
     lastX := newX;
     lastY := newY;
     runLoop := runLoop self;
     nextDisplayLink := nextDisplayLink self |}.

(** The block passed to [startDeviceMotionUpdatesToQueue:withHandler:],
    run once for each sample CoreMotion delivers. *)
Definition deviceMotionBlock (self : RCTMotionManager)
  (motion : option CMDeviceMotion)
  : RCTMotionManager * list CGAffineTransform :=
  if state_eqb (_lockState self) RCTMotionManagerStateUnlocking then
    (self, [])
  else
    match motion with
    | None => (self, [])
    | Some motion =>
      let gravity := gravity motion in
      if isFlatWithGravity gravity then (self, [])
      else
        let decay := minDecay + fabs (acc_x gravity) * (1 - minDecay) in
        let newX := acc_x gravity * decay + lastX self * (1 - decay) in
        let newY := acc_y gravity * decay + lastY self * (1 - decay) in
        let rawRotation := atan2 newX newY - M_PI in
        let displayRotation :=
          rotationWithLockState (_lockState self) rawRotation in
        let normalizedDisplayRotationDegrees :=
          if Rltb displayRotation 0
          then (displayRotation + 2 * M_PI) / M_PI * 180
          else displayRotation / M_PI * 180 in
        let self' :=
          storeSample self newX newY displayRotation
            (rawRotation - displayRotation)
            normalizedDisplayRotationDegrees in
        (self', callHandler self' (transformWithRotation self' displayRotation))
    end.

Definition getZeroRotationTransform (self : RCTMotionManager)
  : CGAffineTransform :=
  transformWithRotation self 0.

Definition stopDeviceMotionUpdates (self : RCTMotionManager)
  : RCTMotionManager :=
  {| deviceMotionActive := false;
     _updatesHandler := _updatesHandler self;
     _scaler := _scaler self;
     _videoWidth := _videoWidth self;
     _videoHeight := _videoHeight self;
     _viewWidth := _viewWidth self;
     _viewHeight := _viewHeight self;
     _lockState := _lockState self;
     _animatorSampler := _animatorSampler self;
     _animationStartTime := _animationStartTime self;
     _initialRotationWhenUnlocking := _initialRotationWhenUnlocking self;
     _rotationDeltaForUnlocking := _rotationDeltaForUnlocking self;
     _framelessCounter := _framelessCounter self;
     lastX := lastX self;
     lastY := lastY self;
     runLoop := runLoop self;
     nextDisplayLink := nextDisplayLink self |}.

Definition setLockState (self : RCTMotionManager)
  (s : RCTMotionManagerState) (links : list CADisplayLink)
  : RCTMotionManager :=
  {| deviceMotionActive := deviceMotionActive self;
     _updatesHandler := _updatesHandler self;
     _scaler := _scaler self;
     _videoWidth := _videoWidth self;
     _videoHeight := _videoHeight self;
     _viewWidth := _viewWidth self;
     _viewHeight := _viewHeight self;
     _lockState := s;
     _animatorSampler := _animatorSampler self;
     _animationStartTime := _animationStartTime self;
     _initialRotationWhenUnlocking := _initialRotationWhenUnlocking self;
     _rotationDeltaForUnlocking := _rotationDeltaForUnlocking self;
     _framelessCounter := _framelessCounter self;
     lastX := lastX self;
     lastY := lastY self;
     runLoop := links;
     nextDisplayLink := nextDisplayLink self |}.

Definition lock (self : RCTMotionManager) : RCTMotionManager :=
  setLockState self RCTMotionManagerStateLocked (runLoop self).

(** [unLock], called when the clock reads [now]: a new display link is
    created and scheduled; one made by an earlier call stays scheduled. *)
Definition unLock (self : RCTMotionManager) (now : R) : RCTMotionManager :=
  {| deviceMotionActive := deviceMotionActive self;
     _updatesHandler := _updatesHandler self;
     _scaler := _scaler self;
     _videoWidth := _videoWidth self;
     _videoHeight := _videoHeight self;
     _viewWidth := _viewWidth self;
     _viewHeight := _viewHeight self;
     _lockState := RCTMotionManagerStateUnlocking;
     _animatorSampler := Some (nextDisplayLink self);
     _animationStartTime := now;
     _initialRotationWhenUnlocking := _initialRotationWhenUnlocking self;
     _rotationDeltaForUnlocking := _rotationDeltaForUnlocking self;
     _framelessCounter := _framelessCounter self;
     lastX := lastX self;
     lastY := lastY self;
     runLoop := nextDisplayLink self :: runLoop self;
     nextDisplayLink := S (nextDisplayLink self) |}.

(** Modelled from the spec: [RCTFramelessCounter] (its [record:],
    [trackingProperties] and [resetCount]) is not among the sources.  The
    spec gives the counter a [record(angleDegrees)] called for each
    processed sample and a snapshot that is reset on read; here the
    counter is the log of the recorded angles, [trackingProperties]
    reports the log and [resetCount] empties it.  [framelessProperties]
    itself is the source's: the properties are read, then the count is
    reset, then the properties are returned. *)
Definition framelessProperties (self : RCTMotionManager)
  : RCTMotionManager * list R :=
  ({| deviceMotionActive := deviceMotionActive self;
      _updatesHandler := _updatesHandler self;
      _scaler := _scaler self;
      _videoWidth := _videoWidth self;
      _videoHeight := _videoHeight self;
      _viewWidth := _viewWidth self;
      _viewHeight := _viewHeight self;
      _lockState := _lockState self;
      _animatorSampler := _animatorSampler self;
      _animationStartTime := _animationStartTime self;
      _initialRotationWhenUnlocking := _initialRotationWhenUnlocking self;
      _rotationDeltaForUnlocking := _rotationDeltaForUnlocking self;
      _framelessCounter := [];
      lastX := lastX self;
      lastY := lastY self;
      runLoop := runLoop self;
      nextDisplayLink := nextDisplayLink self |},
   _framelessCounter self).

Definition springAnimationFactorWithTimeElapsed (timeElapsed : R) : R :=
  - exp2 (-6 * timeElapsed) / 2
  * (-2 * exp2 (6 * timeElapsed)
     + sin (12 * timeElapsed) + 2 * cos (12 * timeElapsed)).

(** [[sampler invalidate]]: the link leaves the run loop. *)
Definition invalidate (sampler : CADisplayLink) (links : list CADisplayLink)
  : list CADisplayLink :=
  remove Nat.eq_dec sampler links.

(** [sampleAnimator:], called by display link [sampler] when the clock
    reads [now]. *)
Definition sampleAnimator (self : RCTMotionManager) (sampler : CADisplayLink)
  (now : R) : RCTMotionManager * list CGAffineTransform :=
  let timeElapsed := now - _animationStartTime self in
  let factor := springAnimationFactorWithTimeElapsed timeElapsed in
  let rotation :=
    _initialRotationWhenUnlocking self
    + _rotationDeltaForUnlocking self * factor in
  let out := callHandler self (transformWithRotation self rotation) in
  if Rgtb timeElapsed 1
  then (setLockState self RCTMotionManagerStateFree
          (invalidate sampler (runLoop self)), out)
  else (self, out).

(** ** The main queue

    Everything that happens to a manager: calls of its methods, samples
    from CoreMotion and ticks of display links.  CoreMotion delivers a
    sample only between start and stop; a display link fires only while
    it is scheduled. *)

Inductive event : Type :=
| Start (handler : bool)
| Stop
| Lock
| UnLock (now : R)
| DeviceMotion (motion : option CMDeviceMotion)
| DisplayLinkTick (sampler : CADisplayLink) (now : R)
| FramelessProperties.

Definition linkScheduled (sampler : CADisplayLink)
  (links : list CADisplayLink) : bool :=
  existsb (Nat.eqb sampler) links.

Definition step (self : RCTMotionManager) (e : event)
  : RCTMotionManager * list CGAffineTransform :=
  match e with
  | Start handler => (startDeviceMotionUpdatesWithHandler self handler, [])
  | Stop => (stopDeviceMotionUpdates self, [])
  | Lock => (lock self, [])
  | UnLock now => (unLock self now, [])
  | DeviceMotion motion =>
      if deviceMotionActive self then deviceMotionBlock self motion
      else (self, [])
  | DisplayLinkTick sampler now =>
      if linkScheduled sampler (runLoop self)
      then sampleAnimator self sampler now
      else (self, [])
  | FramelessProperties => (fst (framelessProperties self), [])
  end.

(** The manager after a sequence of events, and every transform the
    handler was called with, in order. *)
Fixpoint run (self : RCTMotionManager) (es : list event)
  : RCTMotionManager * list CGAffineTransform :=
  match es with
  | [] => (self, [])
  | e :: es' =>
      let (self1, out1) := step self e in
      let (self2, out2) := run self1 es' in
      (self2, out1 ++ out2)
  end.

(** ** Kinds of events *)

(** An event at which the sensor block computes no displayed angle:
    anything but a sample that gets past the block's early returns.  A
    sample does not when the updates are stopped, when the state is
    Unlocking, when there is no motion or when the gravity is flat. *)
Definition keepsAngle (self : RCTMotionManager) (e : event) : Prop :=
  match e with
  | DeviceMotion (Some motion) =>
      deviceMotionActive self = false \/
      _lockState self = RCTMotionManagerStateUnlocking \/
      isFlatWithGravity (gravity motion) = true
  | _ => True
  end.

(** A display-link tick is the other event that can call the handler. *)
Definition notTick (e : event) : Prop :=
  match e with
  | DisplayLinkTick _ _ => False
  | _ => True
  end.

(** What can arrive during the unlock window of an animation started at
    [start]: samples, and display-link ticks whose elapsed time is not
    above 1.0. *)
Definition windowEvent (start : R) (e : event) : Prop :=
  match e with
  | DeviceMotion _ => True
  | DisplayLinkTick _ now => now - start <= 1
  | _ => False
  end.

(** An event that is neither a start of the updates nor a display-link
    tick. *)
Definition noStartNoTick (e : event) : Prop :=
  match e with
  | Start _ => False
  | DisplayLinkTick _ _ => False
  | _ => True
  end.

(** ** Where the unlock variables can be

    Either the displayed angle was the raw angle (delta 0), or it was
    snapped to the minimum lock angle from above, or to the maximum lock
    angle from below. *)

Definition unlockVariablesInRange (self : RCTMotionManager) : Prop :=
  let initial := _initialRotationWhenUnlocking self in
  let delta := _rotationDeltaForUnlocking self in
  (delta = 0 /\ - (2 * PI) < initial <= 0) \/
  (initial = kMinLockAngle /\ 0 < delta <= midLockAngle - kMinLockAngle) \/
  (initial = kMaxLockAngle /\ midLockAngle - kMaxLockAngle < delta < 0).

(** A sequence of events, from a given manager on, in which no
    displayed angle is computed. *)
Fixpoint noAngleComputed (self : RCTMotionManager) (es : list event)
  : Prop :=
  match es with
  | [] => True
  | e :: es' => keepsAngle self e /\ noAngleComputed (fst (step self e)) es'
  end.

(** ** Concrete inputs

    A sample with a given gravity, a stand-in calculator that always
    answers 1, and a manager made for a 1280x720 video in a 390x200
    view. *)

Definition sampleGravity (x y : R) : CMDeviceMotion :=
  {| gravity := {| acc_x := x; acc_y := y; acc_z := 0 |} |}.

Definition unitCalculator : OvalCalculator :=
  {| get_scaleWithDouble := fun _ _ _ _ _ => 1 |}.

Definition freshManager : RCTMotionManager :=
  initWithVideoWidth unitCalculator 1280 720 390 200.

(** ** Further kinds of states and events *)

(** The smoothed pair lies in the square [-1, 1] x [-1, 1]. *)
Definition smoothedInRange (self : RCTMotionManager) : Prop :=
  -1 <= lastX self <= 1 /\ -1 <= lastY self <= 1.

(** A sample, if the event is one, has gravity components of size at most
    1 (gravity is measured in units of g). *)
Definition gravityNormalised (e : event) : Prop :=
  match e with
  | DeviceMotion (Some motion) =>
      Rabs (acc_x (gravity motion)) <= 1 /\ Rabs (acc_y (gravity motion)) <= 1
  | _ => True
  end.

(** The scheduled display links are distinct and were all created
    already. *)
Definition linksFresh (self : RCTMotionManager) : Prop :=
  NoDup (runLoop self) /\
  Forall (fun link => (link < nextDisplayLink self)%nat) (runLoop self).

(** In state Unlocking the display link made by the last [unLock] is
    scheduled. *)
Definition unlockingHasLink (self : RCTMotionManager) : Prop :=
  _lockState self = RCTMotionManagerStateUnlocking ->
  exists link : CADisplayLink,
    _animatorSampler self = Some link /\
    linkScheduled link (runLoop self) = true.

(** An event that does not install a handler. *)
Definition notStartWithHandler (e : event) : Prop :=
  match e with
  | Start true => False
  | _ => True
  end.

(** An event that is not a tick of [link] with elapsed time above 1.0. *)
Definition notOwnLateTick (self : RCTMotionManager) (link : CADisplayLink)
  (e : event) : Prop :=
  match e with
  | DisplayLinkTick sampler now =>
      sampler = link -> now - _animationStartTime self <= 1
  | _ => True
  end.

(** ** Video.js: the wrapper component *)

(** What [resolveAssetSource] answers, when it answers an object: each
    property is there or missing. *)
Record AssetSource : Type := mkAssetSource {
  source_uri : option string;
  source_type : option string;
  source_mainVer : option R;
  source_patchVer : option R
}.

(** The [src] property handed to the native component. *)
Record NativeSrc : Type := mkNativeSrc {
  uri : string;
  isNetwork : bool;
  isAsset : bool;
  type : string;
  mainVer : R;
  patchVer : R
}.

(** [s || empty string] and [n || 0] for a property that may be missing. *)
Definition orEmpty (s : option string) : string :=
  match s with Some v => v | None => EmptyString end.

Definition orZero (n : option R) : R :=
  match n with Some v => v | None => 0 end.

(** [s.match(/^p/)] for a literal [p]: whether [s] starts with [p]. *)
Fixpoint startsWith (p s : string) : bool :=
  match p with
  | EmptyString => true
  | String ch p' =>
      match s with
      | EmptyString => false
      | String ch' s' => Ascii.eqb ch ch' && startsWith p' s'
      end
  end.

(** A string is truthy when it is not empty. *)
Definition truthy (s : string) : bool := negb (String.eqb s EmptyString).

(** [{}], for [resolveAssetSource(...) || {}]. *)
Definition emptySource : AssetSource :=
  {| source_uri := None; source_type := None;
     source_mainVer := None; source_patchVer := None |}.

(** The [src] object built by [render] from the resolved source. *)
Definition renderSrc (resolved : option AssetSource) : NativeSrc :=
  let source := match resolved with Some s => s | None => emptySource end in
  let uri0 := orEmpty (source_uri source) in
  let uri :=
    if truthy uri0 && startsWith "/" uri0
    then ("file://" ++ uri0)%string else uri0 in
  let isNetwork :=
    truthy uri && (startsWith "http:" uri || startsWith "https:" uri) in
  let isAsset :=
    truthy uri &&
    (startsWith "assets-library:" uri || startsWith "file:" uri
     || startsWith "content:" uri || startsWith "ms-appx:" uri
     || startsWith "ms-appdata:" uri) in
  {| uri := uri;
     isNetwork := isNetwork;
     isAsset := isAsset;
     type := orEmpty (source_type source);
     mainVer := orZero (source_mainVer source);
     patchVer := orZero (source_patchVer source) |}.

(** The component's state, and the native events that reach it.  Only
    [_onSeek] and [_onPlaybackRateChange] call [setState]; every other
    handler forwards its event and leaves the state alone. *)
Record VideoState : Type := mkVideoState { showPoster : bool }.

Definition constructorState : VideoState := {| showPoster := true |}.

Inductive NativeEvent : Type :=
| VideoSeek
| PlaybackRateChange (playbackRate : R)
| OtherEvent.

Definition Rneqb (x y : R) : bool := if Req_dec_T x y then false else true.

Definition _onSeek (state : VideoState) : VideoState :=
  if showPoster state then {| showPoster := false |} else state.

Definition _onPlaybackRateChange (state : VideoState) (playbackRate : R)
  : VideoState :=
  if showPoster state && Rneqb playbackRate 0
  then {| showPoster := false |} else state.

Definition handleNativeEvent (state : VideoState) (e : NativeEvent)
  : VideoState :=
  match e with
  | VideoSeek => _onSeek state
  | PlaybackRateChange playbackRate => _onPlaybackRateChange state playbackRate
  | OtherEvent => state
  end.

(** Whether [render] puts the poster image over the video. *)
Definition rendersPoster (poster : option string) (state : VideoState)
  : bool :=
  truthy (orEmpty poster) && showPoster state.

Definition hidesPoster (e : NativeEvent) : bool :=
  match e with
  | VideoSeek => true
  | PlaybackRateChange playbackRate => Rneqb playbackRate 0
  | OtherEvent => false
  end.

(** ** Proof automation *)

(** Decide every comparison of the goal, then let [lra] sort the cases. *)
Ltac cmp :=
  unfold Rgtb, Rltb, Rleb in *;
  repeat match goal with
         | |- context [Rlt_dec ?x ?y] => destruct (Rlt_dec x y)
         | |- context [Rle_dec ?x ?y] => destruct (Rle_dec x y)
         | H : context [Rlt_dec ?x ?y] |- _ => destruct (Rlt_dec x y)
         | H : context [Rle_dec ?x ?y] |- _ => destruct (Rle_dec x y)
         end;
  simpl in *; try reflexivity; try discriminate; try lra.

(** * Properties *)

(** ** Comparisons *)

Lemma Rltb_true (x y : R) : Rltb x y = true <-> x < y.
Proof. unfold Rltb; destruct (Rlt_dec x y); split; intros; try lra; discriminate. Qed.

Lemma Rltb_false (x y : R) : Rltb x y = false <-> y <= x.
Proof. unfold Rltb; destruct (Rlt_dec x y); split; intros; try lra; discriminate. Qed.

Lemma Rleb_true (x y : R) : Rleb x y = true <-> x <= y.
Proof. unfold Rleb; destruct (Rle_dec x y); split; intros; try lra; discriminate. Qed.

Lemma Rleb_false (x y : R) : Rleb x y = false <-> y < x.
Proof. unfold Rleb; destruct (Rle_dec x y); split; intros; try lra; discriminate. Qed.

Lemma lock_angles_ordered :
  kMinLockAngle < midLockAngle /\ midLockAngle < kMaxLockAngle.
Proof. unfold midLockAngle, kMinLockAngle, kMaxLockAngle; lra. Qed.

(** ** The quantizer *)

(** C1.  In state Locked a raw angle in (min, mid] is displayed as the
    minimum lock angle, one in (mid, max) as the maximum lock angle, and
    any other (at either end of the band or outside it) as itself; in
    every other state the raw angle is displayed unchanged. *)
Theorem rotationWithLockState_quantizes (lockState : RCTMotionManagerState)
  (r : R) :
  (lockState = RCTMotionManagerStateLocked ->
   kMinLockAngle < r <= (kMinLockAngle + kMaxLockAngle) / 2 ->
   rotationWithLockState lockState r = kMinLockAngle) /\
  (lockState = RCTMotionManagerStateLocked ->
   (kMinLockAngle + kMaxLockAngle) / 2 < r < kMaxLockAngle ->
   rotationWithLockState lockState r = kMaxLockAngle) /\
  (lockState = RCTMotionManagerStateLocked ->
   r <= kMinLockAngle \/ kMaxLockAngle <= r ->
   rotationWithLockState lockState r = r) /\
  (lockState <> RCTMotionManagerStateLocked ->
   rotationWithLockState lockState r = r).
Proof.
  pose proof lock_angles_ordered as [Hlo Hhi].
  unfold rotationWithLockState, midLockAngle in *.
  repeat split.
  - intros -> [H1 H2]; simpl. cmp.
  - intros -> [H1 H2]; simpl. cmp.
  - intros -> H; simpl. cmp.
  - intros Hs; destruct lockState; simpl; try reflexivity; congruence.
Qed.

Lemma rotationWithLockState_quantizes_witness :
  rotationWithLockState RCTMotionManagerStateLocked (-4) = kMinLockAngle /\
  rotationWithLockState RCTMotionManagerStateLocked (-1) = kMaxLockAngle /\
  rotationWithLockState RCTMotionManagerStateLocked kMinLockAngle
  = kMinLockAngle /\
  rotationWithLockState RCTMotionManagerStateFree (-4) = -4.
Proof.
  pose proof (rotationWithLockState_quantizes RCTMotionManagerStateLocked (-4))
    as (H1 & _).
  pose proof (rotationWithLockState_quantizes RCTMotionManagerStateLocked (-1))
    as (_ & H2 & _).
  pose proof (rotationWithLockState_quantizes RCTMotionManagerStateLocked
                kMinLockAngle) as (_ & _ & H3 & _).
  pose proof (rotationWithLockState_quantizes RCTMotionManagerStateFree (-4))
    as (_ & _ & _ & H4).
  split; [| split; [| split]].
  - apply H1; [reflexivity | unfold kMinLockAngle, kMaxLockAngle; lra].
  - apply H2; [reflexivity | unfold kMinLockAngle, kMaxLockAngle; lra].
  - apply H3; [reflexivity | left; lra].
  - apply H4; discriminate.
Defined.

(** ** The sensor block *)

Lemma state_eqb_eq (s1 s2 : RCTMotionManagerState) :
  state_eqb s1 s2 = true <-> s1 = s2.
Proof. destruct s1, s2; simpl; split; intros; congruence. Qed.

Lemma state_eqb_neq (s1 s2 : RCTMotionManagerState) :
  state_eqb s1 s2 = false <-> s1 <> s2.
Proof. destruct s1, s2; simpl; split; intros; congruence. Qed.

Lemma isFlatWithGravity_true (g : CMAcceleration) :
  isFlatWithGravity g = true <-> Rabs (acc_x g) < 0.2 /\ Rabs (acc_y g) < 0.2.
Proof.
  unfold isFlatWithGravity, fabs.
  rewrite andb_true_iff, !Rltb_true. tauto.
Qed.

(** The sensor block on a sample that gets past its three early
    returns. *)
Lemma deviceMotionBlock_processed (self : RCTMotionManager)
  (motion : CMDeviceMotion) :
  _lockState self <> RCTMotionManagerStateUnlocking ->
  isFlatWithGravity (gravity motion) = false ->
  let g := gravity motion in
  let decay := minDecay + fabs (acc_x g) * (1 - minDecay) in
  let newX := acc_x g * decay + lastX self * (1 - decay) in
  let newY := acc_y g * decay + lastY self * (1 - decay) in
  let rawRotation := atan2 newX newY - M_PI in
  let displayRotation := rotationWithLockState (_lockState self) rawRotation in
  let degrees :=
    if Rltb displayRotation 0
    then (displayRotation + 2 * M_PI) / M_PI * 180
    else displayRotation / M_PI * 180 in
  let self' :=
    storeSample self newX newY displayRotation
      (rawRotation - displayRotation) degrees in
  deviceMotionBlock self (Some motion)
  = (self', callHandler self' (transformWithRotation self' displayRotation)).
Proof.
  intros Hs Hflat. unfold deviceMotionBlock.
  apply state_eqb_neq in Hs. rewrite Hs, Hflat. reflexivity.
Qed.

(** C2, amended.  A sample that arrives while the state is not
    Unlocking and gets past the flat guard is blended into the
    smoothed pair with decay [0.15 + |x| * (1 - 0.15)], each component
    becoming [sample * decay + smoothed * (1 - decay)]; the decay grows
    with [|x|] and is [0.15] at [x = 0]; starting the updates sets the
    smoothed pair to (-1, -1), so the first sample is blended with -1. *)
Theorem smoother_update_law (self : RCTMotionManager)
  (motion : CMDeviceMotion) (handler : bool) :
  _lockState self <> RCTMotionManagerStateUnlocking ->
  isFlatWithGravity (gravity motion) = false ->
  let decay := fun x : R => 0.15 + Rabs x * (1 - 0.15) in
  let s := gravity motion in
  let after := fst (deviceMotionBlock self (Some motion)) in
  let started := startDeviceMotionUpdatesWithHandler self handler in
  let first := fst (deviceMotionBlock started (Some motion)) in
  lastX after = acc_x s * decay (acc_x s) + lastX self * (1 - decay (acc_x s))
  /\ lastY after
     = acc_y s * decay (acc_x s) + lastY self * (1 - decay (acc_x s))
  /\ (forall x1 x2 : R, Rabs x1 < Rabs x2 -> decay x1 < decay x2)
  /\ decay 0 = 0.15
  /\ lastX started = -1 /\ lastY started = -1
  /\ lastX first = acc_x s * decay (acc_x s) + -1 * (1 - decay (acc_x s))
  /\ lastY first = acc_y s * decay (acc_x s) + -1 * (1 - decay (acc_x s)).
Proof.
  intros Hs Hflat decay s after started first.
  assert (Hs' : _lockState started <> RCTMotionManagerStateUnlocking)
    by exact Hs.
  subst after first.
  rewrite (deviceMotionBlock_processed self motion Hs Hflat).
  rewrite (deviceMotionBlock_processed started motion Hs' Hflat).
  subst decay s started. unfold minDecay, fabs. simpl.
  repeat split.
  - intros x1 x2 H. lra.
  - rewrite Rabs_R0. lra.
Qed.

Lemma Rabs_lit_ge (x k : R) : k <= x -> ~ Rabs x < k.
Proof. intros H1 H2. unfold Rabs in H2. destruct (Rcase_abs x); lra. Qed.

Lemma notFlat_x (x y : R) :
  0.2 <= x -> isFlatWithGravity (gravity (sampleGravity x y)) = false.
Proof.
  intros Hx. destruct (isFlatWithGravity _) eqn:E; [| reflexivity].
  apply isFlatWithGravity_true in E. simpl in E.
  destruct E as [E _]. exfalso. exact (Rabs_lit_ge x 0.2 Hx E).
Qed.

Lemma smoother_update_law_witness :
  let after := fst (deviceMotionBlock
                      (startDeviceMotionUpdatesWithHandler freshManager true)
                      (Some (sampleGravity 0.5 0.5))) in
  lastX after = -0.1375 /\ lastY after = -0.1375.
Proof.
  pose proof (smoother_update_law freshManager (sampleGravity 0.5 0.5) true)
    as H.
  simpl in H.
  destruct H as (_ & _ & _ & _ & _ & _ & HX & HY).
  - discriminate.
  - apply (notFlat_x 0.5 0.5). lra.
  - simpl. rewrite HX, HY. rewrite (Rabs_pos_eq 0.5) by lra. split; lra.
Defined.

(** C2, as the specification has it, fails: here a sample with gravity
    (0.5, 0.5) passes the flat guard's test, the update law with decay
    0.575 would move both smoothed components from -1 to -0.1375, and,
    the state being Unlocking, the smoothed pair stays (-1, -1). *)
Lemma unlocking_sample_escapes_update_law :
  let unlocking :=
    unLock (startDeviceMotionUpdatesWithHandler freshManager true) 0 in
  let motion := sampleGravity 0.5 0.5 in
  let decay := 0.15 + Rabs 0.5 * (1 - 0.15) in
  let after := fst (deviceMotionBlock unlocking (Some motion)) in
  isFlatWithGravity (gravity motion) = false /\
  0.5 * decay + lastX unlocking * (1 - decay) = -0.1375 /\
  lastX after = -1 /\ lastY after = -1 /\
  lastX after <> 0.5 * decay + lastX unlocking * (1 - decay) /\
  lastY after <> 0.5 * decay + lastY unlocking * (1 - decay).
Proof.
  simpl. rewrite (Rabs_pos_eq 0.5) by lra.
  split; [apply (notFlat_x 0.5 0.5); lra |].
  split; [lra | split; [reflexivity | split; [reflexivity |]]].
  split; lra.
Qed.

(** C5.  A sample with [|x| < 0.2] and [|y| < 0.2] is dropped: the
    manager (smoothed pair, unlock variables, frameless counter and all
    the rest) is what it was, and the handler is not called. *)
Theorem flat_sample_discarded (self : RCTMotionManager)
  (motion : CMDeviceMotion) :
  Rabs (acc_x (gravity motion)) < 0.2 ->
  Rabs (acc_y (gravity motion)) < 0.2 ->
  deviceMotionBlock self (Some motion) = (self, []) /\
  step self (DeviceMotion (Some motion)) = (self, []).
Proof.
  intros Hx Hy.
  assert (Hflat : isFlatWithGravity (gravity motion) = true)
    by (apply isFlatWithGravity_true; split; assumption).
  assert (H : deviceMotionBlock self (Some motion) = (self, [])).
  { unfold deviceMotionBlock. rewrite Hflat.
    destruct (state_eqb _ _); reflexivity. }
  split; [exact H |].
  simpl. rewrite H. destruct (deviceMotionActive self); reflexivity.
Qed.

Lemma flat_sample_discarded_witness :
  let self := startDeviceMotionUpdatesWithHandler freshManager true in
  deviceMotionBlock self (Some (sampleGravity 0.1 (-0.1))) = (self, []) /\
  step self (DeviceMotion (Some (sampleGravity 0.1 (-0.1)))) = (self, []).
Proof.
  apply (flat_sample_discarded
           (startDeviceMotionUpdatesWithHandler freshManager true)
           (sampleGravity 0.1 (-0.1)));
    simpl; unfold Rabs; destruct (Rcase_abs _); lra.
Defined.

(** ** The spring curve *)

Lemma exp2_pos (x : R) : 0 < exp2 x.
Proof. unfold exp2, Rpower. apply exp_pos. Qed.

Lemma exp2_0 : exp2 0 = 1.
Proof. unfold exp2. apply Rpower_O. lra. Qed.

Lemma exp2_opp_mult (x : R) : exp2 (- x) * exp2 x = 1.
Proof.
  unfold exp2. rewrite <- Rpower_plus.
  replace (- x + x) with 0 by lra. apply Rpower_O. lra.
Qed.

Lemma exp2_le (x y : R) : x <= y -> exp2 x <= exp2 y.
Proof. intros H. unfold exp2. apply Rle_Rpower; lra. Qed.

(** 2^(-1.8) is below 0.288, since 0.288^5 is above 2^(-9). *)
Lemma exp2_minus_1_8 : exp2 (-1.8) <= 0.288.
Proof.
  destruct (Rle_lt_dec (exp2 (-1.8)) 0.288) as [H | H]; [exact H | exfalso].
  assert (H5 : exp2 (-1.8) ^ 5 = / 2 ^ 9).
  { rewrite <- (Rpower_pow 5 (exp2 (-1.8)) (exp2_pos _)).
    unfold exp2. rewrite Rpower_mult.
    replace (-1.8 * INR 5) with (- INR 9) by (simpl; lra).
    rewrite Rpower_Ropp, Rpower_pow by lra. reflexivity. }
  assert (Hle : 0.288 ^ 5 <= exp2 (-1.8) ^ 5) by (apply pow_incr; lra).
  rewrite H5 in Hle. lra.
Qed.

(** The curve is 1 minus a decaying oscillation. *)
Lemma spring_factor_decomposed (t : R) :
  springAnimationFactorWithTimeElapsed t
  = 1 - exp2 (-6 * t) * (sin (12 * t) + 2 * cos (12 * t)) / 2.
Proof.
  unfold springAnimationFactorWithTimeElapsed.
  pose proof (exp2_opp_mult (6 * t)) as H.
  replace (- (6 * t)) with (-6 * t) in H by lra.
  set (E := exp2 (-6 * t)) in *. set (E' := exp2 (6 * t)) in *.
  replace (- E / 2 * (-2 * E' + sin (12 * t) + 2 * cos (12 * t)))
    with (E * E' - E * (sin (12 * t) + 2 * cos (12 * t)) / 2) by lra.
  rewrite H. reflexivity.
Qed.

Lemma sin_plus_2cos_bound (x : R) : -2.237 <= sin x + 2 * cos x <= 2.237.
Proof.
  pose proof (sin2_cos2 x) as H. unfold Rsqr in H.
  set (s := sin x) in *. set (k := cos x) in *.
  pose proof (Rle_0_sqr (2 * s - k)) as Hc. unfold Rsqr in Hc.
  assert (Hsq : (s + 2 * k) * (s + 2 * k) <= 5) by lra.
  split; nra.
Qed.

(** C4.  The unlock easing is the spring formula with its constants; it
    is exactly 0 at elapsed time 0, and from 0.3 to 1.0 it stays within
    0.33 of 1. *)
Theorem spring_factor_curve :
  (forall t : R,
      springAnimationFactorWithTimeElapsed t
      = - Rpower 2 (-6 * t) / 2
        * (-2 * Rpower 2 (6 * t) + sin (12 * t) + 2 * cos (12 * t))) /\
  springAnimationFactorWithTimeElapsed 0 = 0 /\
  (forall t : R,
      0.3 <= t <= 1 ->
      Rabs (springAnimationFactorWithTimeElapsed t - 1) <= 0.33).
Proof.
  split; [reflexivity | split].
  - rewrite spring_factor_decomposed.
    rewrite !Rmult_0_r, exp2_0, sin_0, cos_0. lra.
  - intros t [Hlo Hhi]. rewrite spring_factor_decomposed.
    pose proof (exp2_pos (-6 * t)) as Hpos.
    assert (HE : exp2 (-6 * t) <= 0.288).
    { apply Rle_trans with (exp2 (-1.8)); [| exact exp2_minus_1_8].
      apply exp2_le. lra. }
    pose proof (sin_plus_2cos_bound (12 * t)) as [Hs1 Hs2].
    set (E := exp2 (-6 * t)) in *.
    set (w := sin (12 * t) + 2 * cos (12 * t)) in *.
    apply Rabs_le. split; nra.
Qed.

Lemma spring_factor_curve_witness :
  Rabs (springAnimationFactorWithTimeElapsed 0.5 - 1) <= 0.33.
Proof.
  destruct spring_factor_curve as (_ & _ & H).
  apply (H 0.5). lra.
Defined.

(** ** Lock, unlock and the animator *)

Lemma linkScheduled_true (sampler : CADisplayLink)
  (links : list CADisplayLink) :
  linkScheduled sampler links = true <-> In sampler links.
Proof.
  unfold linkScheduled. rewrite existsb_exists. split.
  - intros (x & Hin & Heq). apply Nat.eqb_eq in Heq. subst. exact Hin.
  - intros Hin. exists sampler. split; [exact Hin | apply Nat.eqb_refl].
Qed.

Lemma linkScheduled_invalidate (sampler : CADisplayLink)
  (links : list CADisplayLink) :
  linkScheduled sampler (invalidate sampler links) = false.
Proof.
  destruct (linkScheduled _ _) eqn:E; [| reflexivity].
  apply linkScheduled_true in E. unfold invalidate in E.
  exfalso. exact (remove_In Nat.eq_dec links sampler E).
Qed.

(** The sensor block while unlocking: nothing happens. *)
Lemma deviceMotionBlock_unlocking (self : RCTMotionManager)
  (motion : option CMDeviceMotion) :
  _lockState self = RCTMotionManagerStateUnlocking ->
  deviceMotionBlock self motion = (self, []).
Proof. intros H. unfold deviceMotionBlock. rewrite H. reflexivity. Qed.

(** The animator before the end of the window leaves the manager as it
    is; after it, the state is Free and the link is invalidated. *)
Lemma sampleAnimator_early (self : RCTMotionManager)
  (sampler : CADisplayLink) (now : R) :
  now - _animationStartTime self <= 1 ->
  fst (sampleAnimator self sampler now) = self.
Proof.
  intros H. unfold sampleAnimator.
  destruct (Rgtb _ _) eqn:E; [| reflexivity].
  apply Rltb_true in E. lra.
Qed.

Lemma sampleAnimator_late (self : RCTMotionManager)
  (sampler : CADisplayLink) (now : R) :
  now - _animationStartTime self > 1 ->
  fst (sampleAnimator self sampler now)
  = setLockState self RCTMotionManagerStateFree
      (invalidate sampler (runLoop self)).
Proof.
  intros H. unfold sampleAnimator.
  destruct (Rgtb _ _) eqn:E; [reflexivity |].
  apply Rltb_false in E. lra.
Qed.

(** What the events of an unlock window leave alone. *)
Lemma windowEvent_keeps (self : RCTMotionManager) (e : event) :
  windowEvent (_animationStartTime self) e ->
  let self' := fst (step self e) in
  _lockState self' = _lockState self /\
  runLoop self' = runLoop self /\
  _animationStartTime self' = _animationStartTime self /\
  (_lockState self = RCTMotionManagerStateUnlocking -> self' = self).
Proof.
  destruct e as [h | | | t | motion | sampler t |]; simpl;
    try contradiction; intros Hw.
  - destruct (deviceMotionActive self); [| tauto].
    unfold deviceMotionBlock.
    destruct (state_eqb _ _) eqn:Es; [tauto |].
    apply state_eqb_neq in Es.
    destruct motion as [motion |]; [| tauto].
    destruct (isFlatWithGravity _); simpl; tauto.
  - destruct (linkScheduled _ _); [| tauto].
    rewrite (sampleAnimator_early self sampler t Hw). tauto.
Qed.

Lemma run_app (self : RCTMotionManager) (es1 es2 : list event) :
  run self (es1 ++ es2)
  = (fst (run (fst (run self es1)) es2),
     snd (run self es1) ++ snd (run (fst (run self es1)) es2)).
Proof.
  revert self. induction es1 as [| e es1 IH]; intros self; simpl.
  - destruct (run self es2); reflexivity.
  - destruct (step self e) as [self1 out1]. rewrite IH.
    destruct (run self1 es1) as [self2 out2]. simpl.
    rewrite app_assoc. reflexivity.
Qed.

Lemma window_keeps (es : list event) :
  forall self : RCTMotionManager,
  Forall (windowEvent (_animationStartTime self)) es ->
  let self' := fst (run self es) in
  _lockState self' = _lockState self /\
  runLoop self' = runLoop self /\
  _animationStartTime self' = _animationStartTime self /\
  (_lockState self = RCTMotionManagerStateUnlocking -> self' = self).
Proof.
  induction es as [| e es IH]; intros self Hall; simpl.
  - tauto.
  - inversion Hall as [| ? ? He Hes]; subst.
    pose proof (windowEvent_keeps self e He) as (K1 & K2 & K3 & K4).
    destruct (step self e) as [self1 out1] eqn:E1. simpl in *.
    rewrite <- K3 in Hes.
    pose proof (IH self1 Hes) as (J1 & J2 & J3 & J4).
    destruct (run self1 es) as [self2 out2]. simpl in *.
    repeat split; try congruence.
    intros Hu. rewrite <- (K4 Hu). apply J4. congruence.
Qed.

Lemma run_single (self : RCTMotionManager) (e : event) :
  fst (run self [e]) = fst (step self e).
Proof. simpl. destruct (step self e). reflexivity. Qed.

Lemma step_tick_late (self : RCTMotionManager) (sampler : CADisplayLink)
  (now : R) :
  linkScheduled sampler (runLoop self) = true ->
  now - _animationStartTime self > 1 ->
  fst (step self (DisplayLinkTick sampler now))
  = setLockState self RCTMotionManagerStateFree
      (invalidate sampler (runLoop self)).
Proof.
  intros Hl Ht. unfold step. rewrite Hl. apply sampleAnimator_late. exact Ht.
Qed.

(** An event at which no displayed angle is computed leaves the two
    unlock variables alone and, unless it is a tick, calls no handler. *)
Lemma keepsAngle_step (self : RCTMotionManager) (e : event) :
  keepsAngle self e ->
  _initialRotationWhenUnlocking (fst (step self e))
  = _initialRotationWhenUnlocking self /\
  _rotationDeltaForUnlocking (fst (step self e))
  = _rotationDeltaForUnlocking self /\
  (notTick e -> snd (step self e) = []).
Proof.
  intros He.
  destruct e as [h | | | t | motion | sampler t |]; simpl;
    try (split; [reflexivity | split; [reflexivity | intros _; reflexivity]]).
  - assert (Hskip : deviceMotionBlock self motion = (self, []) \/
                    deviceMotionActive self = false).
    { destruct motion as [motion |].
      - simpl in He. destruct He as [He | [He | He]].
        + right. exact He.
        + left. apply deviceMotionBlock_unlocking. exact He.
        + left. unfold deviceMotionBlock. rewrite He.
          destruct (state_eqb _ _); reflexivity.
      - left. unfold deviceMotionBlock.
        destruct (state_eqb _ _); reflexivity. }
    destruct Hskip as [Hskip | Hoff].
    + rewrite Hskip. destruct (deviceMotionActive self);
        (split; [reflexivity | split; [reflexivity | intros _; reflexivity]]).
    + rewrite Hoff.
      split; [reflexivity | split; [reflexivity | intros _; reflexivity]].
  - destruct (linkScheduled _ _).
    + unfold sampleAnimator. destruct (Rgtb _ _); simpl;
        (split; [reflexivity | split; [reflexivity | contradiction]]).
    + split; [reflexivity | split; [reflexivity | contradiction]].
Qed.

Lemma noAngleComputed_keeps (es : list event) :
  forall self : RCTMotionManager,
  noAngleComputed self es ->
  let self' := fst (run self es) in
  _initialRotationWhenUnlocking self' = _initialRotationWhenUnlocking self /\
  _rotationDeltaForUnlocking self' = _rotationDeltaForUnlocking self.
Proof.
  induction es as [| e es IH]; intros self Hall; simpl.
  - tauto.
  - destruct Hall as [He Hes].
    pose proof (keepsAngle_step self e He) as (K1 & K2 & _).
    destruct (step self e) as [self1 out1]. simpl in *.
    pose proof (IH self1 Hes) as J.
    destruct (run self1 es) as [self2 out2]. simpl in *.
    destruct J. split; congruence.
Qed.

(** With no displayed angle computed and no tick, the handler is not
    called. *)
Lemma noAngleComputed_silent (es : list event) :
  forall self : RCTMotionManager,
  noAngleComputed self es -> Forall notTick es ->
  snd (run self es) = [].
Proof.
  induction es as [| e es IH]; intros self Hall Hticks; simpl.
  - reflexivity.
  - destruct Hall as [He Hes].
    inversion Hticks as [| ? ? Ht Hts]; subst.
    pose proof (keepsAngle_step self e He) as (_ & _ & K).
    specialize (K Ht).
    destruct (step self e) as [self1 out1]. simpl in *.
    pose proof (IH self1 Hes Hts) as J.
    destruct (run self1 es) as [self2 out2]. simpl in *.
    rewrite K, J. reflexivity.
Qed.



(** C10.  [lock] called while unlocking sets the state to Locked at once
    and leaves the display link scheduled; whatever samples and early
    ticks follow, the state is still Locked, and the first tick whose
    elapsed time is above 1.0 sets it to Free: the lock is lost. *)
Theorem lock_while_unlocking_is_lost (self : RCTMotionManager)
  (sampler : CADisplayLink) (ws : list event) (now : R) :
  _lockState self = RCTMotionManagerStateUnlocking ->
  linkScheduled sampler (runLoop self) = true ->
  Forall (windowEvent (_animationStartTime self)) ws ->
  now - _animationStartTime self > 1 ->
  let locked := lock self in
  let later := fst (run locked ws) in
  let done := fst (step later (DisplayLinkTick sampler now)) in
  _lockState locked = RCTMotionManagerStateLocked /\
  linkScheduled sampler (runLoop locked) = true /\
  _lockState later = RCTMotionManagerStateLocked /\
  linkScheduled sampler (runLoop later) = true /\
  _lockState done = RCTMotionManagerStateFree.
Proof.
  intros Hu Hlink Hws Hnow locked later done.
  pose proof (window_keeps ws locked Hws) as (K1 & K2 & K3 & _).
  fold later in K1, K2, K3.
  assert (Hl : linkScheduled sampler (runLoop later) = true)
    by (rewrite K2; exact Hlink).
  split; [reflexivity | split; [exact Hlink | split; [exact K1 |]]].
  split; [exact Hl |].
  subst done. rewrite step_tick_late; [reflexivity | exact Hl |].
  rewrite K3. exact Hnow.
Qed.

Lemma lock_while_unlocking_is_lost_witness :
  let unlocking :=
    unLock (startDeviceMotionUpdatesWithHandler freshManager true) 0 in
  _lockState (lock unlocking) = RCTMotionManagerStateLocked /\
  _lockState
    (fst (step (fst (run (lock unlocking)
                       [DeviceMotion (Some (sampleGravity 1 0));
                        DisplayLinkTick O 0.5]))
            (DisplayLinkTick O 2)))
  = RCTMotionManagerStateFree.
Proof.
  pose proof (lock_while_unlocking_is_lost
                (unLock (startDeviceMotionUpdatesWithHandler freshManager true)
                   0)
                O
                [DeviceMotion (Some (sampleGravity 1 0));
                 DisplayLinkTick O 0.5] 2) as H.
  destruct H as (H1 & _ & _ & _ & H5).
  - reflexivity.
  - reflexivity.
  - repeat constructor; simpl; lra.
  - simpl; lra.
  - split; [exact H1 | exact H5].
Defined.

(** ** Samples during the unlock window *)

(** C6, as the specification has it, fails: here a sample with gravity
    (1, 0) arrives while unlocking and passes the flat guard, the update
    law would move the smoothed x from -1 to 1, and the smoothed pair
    stays (-1, -1). *)
Lemma unlocking_sample_not_smoothed :
  let unlocking :=
    unLock (startDeviceMotionUpdatesWithHandler freshManager true) 0 in
  let motion := sampleGravity 1 0 in
  let decay := minDecay + fabs 1 * (1 - minDecay) in
  let after := fst (step unlocking (DeviceMotion (Some motion))) in
  _lockState unlocking = RCTMotionManagerStateUnlocking /\
  isFlatWithGravity (gravity motion) = false /\
  1 * decay + lastX unlocking * (1 - decay) = 1 /\
  lastX after = -1 /\ lastY after = -1 /\
  lastX after <> 1 * decay + lastX unlocking * (1 - decay).
Proof.
  simpl. unfold minDecay, fabs. rewrite Rabs_R1.
  split; [reflexivity | split; [apply (notFlat_x 1 0); lra |]].
  split; [lra | split; [reflexivity | split; [reflexivity | lra]]].
Qed.

(** C6, amended.  A sample that arrives while unlocking is dropped
    whole: the handler is not called and the manager (smoothed pair,
    unlock variables and the rest) is what it was, however many samples
    arrive, so that the smoothed pair at the end of the window is the
    one from before it. *)
Theorem unlocking_samples_ignored (self : RCTMotionManager)
  (motions : list (option CMDeviceMotion)) :
  _lockState self = RCTMotionManagerStateUnlocking ->
  (forall motion, deviceMotionBlock self motion = (self, [])) /\
  run self (map DeviceMotion motions) = (self, []).
Proof.
  intros Hu.
  split; [intros motion; apply deviceMotionBlock_unlocking; exact Hu |].
  induction motions as [| motion motions IH]; simpl; [reflexivity |].
  rewrite (deviceMotionBlock_unlocking self motion Hu).
  destruct (deviceMotionActive self); rewrite IH; reflexivity.
Qed.

Lemma unlocking_samples_ignored_witness :
  let unlocking :=
    unLock (startDeviceMotionUpdatesWithHandler freshManager true) 0 in
  run unlocking
    (map DeviceMotion [Some (sampleGravity 1 0); None;
                       Some (sampleGravity 0 1)])
  = (unlocking, []).
Proof.
  apply (unlocking_samples_ignored
           (unLock (startDeviceMotionUpdatesWithHandler freshManager true) 0)
           [Some (sampleGravity 1 0); None; Some (sampleGravity 0 1)]).
  reflexivity.
Defined.

(** ** Stopping *)

(** C7, as the specification has it, fails: here an unlock animation is
    in flight when the updates are stopped; its display link is still
    scheduled afterwards, and its next tick calls the handler. *)
Lemma handler_called_after_stop :
  let unlocking :=
    unLock (startDeviceMotionUpdatesWithHandler freshManager true) 0 in
  let stopped := stopDeviceMotionUpdates unlocking in
  _lockState stopped = RCTMotionManagerStateUnlocking /\
  runLoop stopped = [O] /\
  snd (run stopped [DisplayLinkTick O 0.5])
  = [transformWithRotation stopped
       (0 + 0 * springAnimationFactorWithTimeElapsed (0.5 - 0))] /\
  snd (run stopped [DisplayLinkTick O 0.5]) <> [].
Proof.
  simpl. unfold sampleAnimator. simpl.
  destruct (Rgtb (0.5 - 0) 1); simpl;
    (split; [reflexivity | split; [reflexivity | split;
       [reflexivity | discriminate]]]).
Qed.

Lemma stopped_stays_silent (es : list event) :
  forall self : RCTMotionManager,
  deviceMotionActive self = false ->
  Forall noStartNoTick es ->
  snd (run self es) = [].
Proof.
  induction es as [| e es IH]; intros self Hoff Hall; simpl.
  - reflexivity.
  - inversion Hall as [| ? ? He Hes]; subst.
    assert (K : deviceMotionActive (fst (step self e)) = false /\
                snd (step self e) = []).
    { destruct e as [h | | | t | motion | sampler t |]; simpl in He;
        try contradiction; unfold step; try rewrite Hoff;
        split; solve [exact Hoff | reflexivity]. }
    destruct (step self e) as [self1 out1]. simpl in K.
    destruct K as [K1 K2]. pose proof (IH self1 K1 Hes) as J.
    destruct (run self1 es) as [self2 out2]. simpl in *.
    rewrite K2, J. reflexivity.
Qed.

(** C7, amended.  Stopping halts the delivery of samples at once: until
    the updates are started again, nothing but a display-link tick calls
    the handler.  It does not release the display link of an animation in
    flight: the links scheduled before are scheduled after, each tick of
    one calls the handler as before, and only a tick whose elapsed time
    is above 1.0 invalidates it. *)
Theorem stop_halts_samples_only (self : RCTMotionManager) (es : list event)
  (sampler : CADisplayLink) (now : R) :
  let stopped := stopDeviceMotionUpdates self in
  let rotation :=
    _initialRotationWhenUnlocking self
    + _rotationDeltaForUnlocking self
      * springAnimationFactorWithTimeElapsed
          (now - _animationStartTime self) in
  let ticked := step stopped (DisplayLinkTick sampler now) in
  deviceMotionActive stopped = false /\
  runLoop stopped = runLoop self /\
  _lockState stopped = _lockState self /\
  (Forall noStartNoTick es -> snd (run stopped es) = []) /\
  (linkScheduled sampler (runLoop self) = true ->
   snd ticked
   = callHandler self (transformWithRotation self rotation) /\
   (now - _animationStartTime self <= 1 -> fst ticked = stopped) /\
   (now - _animationStartTime self > 1 ->
    linkScheduled sampler (runLoop (fst ticked)) = false)).
Proof.
  intros stopped rotation ticked.
  split; [reflexivity | split; [reflexivity | split; [reflexivity |]]].
  split.
  - intros Hall. apply stopped_stays_silent; [reflexivity | exact Hall].
  - intros Hl. subst ticked. unfold step.
    change (runLoop stopped) with (runLoop self). rewrite Hl.
    split; [| split].
    + unfold sampleAnimator. destruct (Rgtb _ _); reflexivity.
    + intros Ht. apply sampleAnimator_early. exact Ht.
    + intros Ht. rewrite sampleAnimator_late by exact Ht.
      apply linkScheduled_invalidate.
Qed.

Lemma stop_halts_samples_only_witness :
  let unlocking :=
    unLock (startDeviceMotionUpdatesWithHandler freshManager true) 0 in
  let stopped := stopDeviceMotionUpdates unlocking in
  snd (run stopped [DeviceMotion (Some (sampleGravity 1 0)); Lock]) = [] /\
  fst (step stopped (DisplayLinkTick O 0.5)) = stopped.
Proof.
  pose proof (stop_halts_samples_only
                (unLock (startDeviceMotionUpdatesWithHandler freshManager true)
                   0)
                [DeviceMotion (Some (sampleGravity 1 0)); Lock] O 0.5) as H.
  destruct H as (_ & _ & _ & H4 & H5).
  split.
  - apply H4. repeat constructor.
  - destruct H5 as (_ & H6 & _); [reflexivity |].
    apply H6. simpl. lra.
Defined.

(** ** The transform *)

Lemma transformWithRotation_matrix (self : RCTMotionManager) (rotation : R) :
  let scale :=
    get_scaleWithDouble (_scaler self) (_viewWidth self) (_viewHeight self)
      (_videoWidth self) (_videoHeight self) rotation in
  transformWithRotation self rotation
  = {| a := scale * cos rotation;
       b := scale * sin rotation;
       c := - (scale * sin rotation);
       d := scale * cos rotation;
       tx := 0;
       ty := 0 |}.
Proof.
  unfold transformWithRotation, CGAffineTransformRotate,
    CGAffineTransformMakeScale. simpl.
  f_equal; lra.
Qed.

(** C9, as the specification has it, fails: here the view width is 0,
    the manager is made all the same, the zero-rotation transform is the
    calculator's scale times the identity, and a sample makes the handler
    be called with one transform. *)
Lemma zero_width_still_emits :
  let self :=
    startDeviceMotionUpdatesWithHandler
      (initWithVideoWidth unitCalculator 1280 720 0 200) true in
  let result := deviceMotionBlock self (Some (sampleGravity 1 0)) in
  _viewWidth self = 0 /\
  getZeroRotationTransform self = CGAffineTransformMakeScale 1 1 /\
  snd result
  = [transformWithRotation self (_initialRotationWhenUnlocking (fst result))]
  /\ snd result <> [].
Proof.
  intros self result.
  assert (Hr : snd result
               = [transformWithRotation self
                    (_initialRotationWhenUnlocking (fst result))]).
  { subst result.
    rewrite (deviceMotionBlock_processed self (sampleGravity 1 0));
      [reflexivity | discriminate | apply (notFlat_x 1 0); lra]. }
  split; [reflexivity | split; [| split; [exact Hr |]]].
  - unfold getZeroRotationTransform.
    rewrite transformWithRotation_matrix. simpl.
    unfold CGAffineTransformMakeScale. rewrite cos_0, sin_0.
    f_equal; lra.
  - rewrite Hr. discriminate.
Qed.

(** C9, amended.  The sizes are not checked anywhere: whatever they are
    (zero and negative ones too) the manager is made with them as given,
    the transform for a rotation is the rotation matrix scaled by what
    the calculator answers for these sizes and this rotation, and a
    sample that is processed makes the handler be called with it.  No
    error is reported. *)
Theorem sizes_are_not_checked (calculator : OvalCalculator)
  (videoWidth videoHeight viewWidth viewHeight rotation : R)
  (motion : CMDeviceMotion) :
  let made :=
    initWithVideoWidth calculator videoWidth videoHeight viewWidth viewHeight
  in
  let self := startDeviceMotionUpdatesWithHandler made true in
  let scale :=
    get_scaleWithDouble calculator viewWidth viewHeight videoWidth videoHeight
      rotation in
  let result := deviceMotionBlock self (Some motion) in
  (_videoWidth made, _videoHeight made, _viewWidth made, _viewHeight made)
  = (videoWidth, videoHeight, viewWidth, viewHeight) /\
  transformWithRotation self rotation
  = {| a := scale * cos rotation;
       b := scale * sin rotation;
       c := - (scale * sin rotation);
       d := scale * cos rotation;
       tx := 0;
       ty := 0 |} /\
  (isFlatWithGravity (gravity motion) = false ->
   snd result
   = [transformWithRotation self
        (_initialRotationWhenUnlocking (fst result))]).
Proof.
  intros made self scale result.
  split; [reflexivity | split].
  - apply (transformWithRotation_matrix self rotation).
  - intros Hflat. subst result.
    rewrite (deviceMotionBlock_processed self motion);
      [reflexivity | discriminate | exact Hflat].
Qed.

Lemma sizes_are_not_checked_witness :
  let self :=
    startDeviceMotionUpdatesWithHandler
      (initWithVideoWidth unitCalculator (-1280) 0 0 (-200)) true in
  let result := deviceMotionBlock self (Some (sampleGravity 1 0)) in
  snd result
  = [transformWithRotation self (_initialRotationWhenUnlocking (fst result))].
Proof.
  pose proof (sizes_are_not_checked unitCalculator (-1280) 0 0 (-200) 0
                (sampleGravity 1 0)) as (_ & _ & H).
  apply H. apply (notFlat_x 1 0). lra.
Defined.

(** ** The range of the rotation *)

Lemma PI_bounds : 3.1415 < PI < 3.1416.
Proof.
  pose proof (PI_2_3_7_ineq 2) as [Hlo Hhi].
  unfold sum_f_R0, tg_alt, PI_2_3_7_tg, Ratan_seq in Hlo, Hhi.
  simpl in Hlo, Hhi.
  split; lra.
Qed.

Lemma atan_sign_neg (x : R) : x <= 0 -> atan x <= 0.
Proof.
  intros [H | H].
  - left. rewrite <- atan_0. apply atan_increasing. exact H.
  - subst. rewrite atan_0. lra.
Qed.

Lemma atan_sign_pos (x : R) : 0 < x -> 0 < atan x.
Proof. intros H. rewrite <- atan_0. apply atan_increasing. exact H. Qed.

Lemma atan2_range (y x : R) : - PI < atan2 y x <= PI.
Proof.
  pose proof PI_RGT_0 as Hpi.
  pose proof (atan_bound (y / x)) as [Hlo Hhi].
  unfold atan2.
  destruct (Rltb 0 x) eqn:E1; [lra |].
  destruct (Rltb x 0) eqn:E2.
  - apply Rltb_true in E2.
    destruct (Rleb 0 y) eqn:E3.
    + apply Rleb_true in E3.
      assert (Hq : y / x <= 0).
      { unfold Rdiv. assert (/ x < 0) by (apply Rinv_lt_0_compat; exact E2).
        nra. }
      pose proof (atan_sign_neg _ Hq). lra.
    + apply Rleb_false in E3.
      assert (Hq : 0 < y / x).
      { unfold Rdiv. assert (/ x < 0) by (apply Rinv_lt_0_compat; exact E2).
        nra. }
      pose proof (atan_sign_pos _ Hq). lra.
  - destruct (Rltb 0 y); [lra |]. destruct (Rltb y 0); lra.
Qed.

Lemma atan2_minus1_0 : atan2 (-1) 0 = - (PI / 2).
Proof.
  unfold atan2.
  assert (E1 : Rltb 0 0 = false) by (apply Rltb_false; lra).
  assert (E2 : Rltb 0 (-1) = false) by (apply Rltb_false; lra).
  assert (E3 : Rltb (-1) 0 = true) by (apply Rltb_true; lra).
  rewrite E1, E2, E3. reflexivity.
Qed.

(** 2^(-0.1) is below 0.95, since 0.95^10 is above 1/2. *)
Lemma exp2_minus_0_1 : exp2 (-0.1) <= 0.95.
Proof.
  destruct (Rle_lt_dec (exp2 (-0.1)) 0.95) as [H | H]; [exact H | exfalso].
  assert (H10 : exp2 (-0.1) ^ 10 = / 2).
  { rewrite <- (Rpower_pow 10 (exp2 (-0.1)) (exp2_pos _)).
    unfold exp2. rewrite Rpower_mult.
    replace (-0.1 * INR 10) with (Ropp 1) by (simpl; lra).
    rewrite Rpower_Ropp, Rpower_1 by lra. reflexivity. }
  assert (Hle : 0.95 ^ 10 <= exp2 (-0.1) ^ 10) by (apply pow_incr; lra).
  rewrite H10 in Hle. lra.
Qed.

(** For t >= 0, 2^(6t) is at least 1 + 3t. *)
Lemma exp2_6t_lower (t : R) : 0 <= t -> 1 + 3 * t <= exp2 (6 * t).
Proof.
  intros Ht. unfold exp2, Rpower.
  apply Rle_trans with (exp (3 * t)); [apply exp_ineq1_le |].
  pose proof ln_lt_2 as Hln.
  assert (Hle : 3 * t <= 6 * t * ln 2) by nra.
  destruct Hle as [Hlt | Heq].
  - left. apply exp_increasing. exact Hlt.
  - rewrite Heq. lra.
Qed.

Lemma sin_le_x (x : R) : 0 <= x -> sin x <= x.
Proof.
  intros [H | H].
  - left. apply sin_lt_x. exact H.
  - subst. rewrite sin_0. lra.
Qed.

Lemma spring_factor_from_0 (t : R) :
  0 <= t -> -0.07 <= springAnimationFactorWithTimeElapsed t <= 2.07.
Proof.
  intros Ht. rewrite spring_factor_decomposed.
  pose proof (exp2_pos (-6 * t)) as Hpos.
  pose proof (sin_plus_2cos_bound (12 * t)) as [Hs1 Hs2].
  destruct (Rle_lt_dec (/ 60) t) as [Hbig | Hsmall].
  - assert (HE : exp2 (-6 * t) <= 0.95).
    { apply Rle_trans with (exp2 (-0.1)); [| exact exp2_minus_0_1].
      apply exp2_le. lra. }
    set (E := exp2 (-6 * t)) in *.
    set (w := sin (12 * t) + 2 * cos (12 * t)) in *.
    split; nra.
  - pose proof PI_bounds as [Hpi _].
    pose proof (exp2_6t_lower t Ht) as Hlow.
    pose proof (exp2_opp_mult (6 * t)) as Hinv.
    replace (- (6 * t)) with (-6 * t) in Hinv by lra.
    assert (H0 : 0 <= sin (12 * t)) by (apply sin_ge_0; lra).
    assert (H1 : sin (12 * t) <= 12 * t) by (apply sin_le_x; lra).
    assert (H2 : 0 <= cos (12 * t)) by (apply cos_ge_0; lra).
    pose proof (COS_bound (12 * t)) as [_ H3].
    set (E := exp2 (-6 * t)) in *. set (E' := exp2 (6 * t)) in *.
    set (s := sin (12 * t)) in *. set (k := cos (12 * t)) in *.
    assert (HE1 : E * (1 + 3 * t) <= 1) by nra.
    assert (HE2 : E <= 1) by nra.
    split; nra.
Qed.

Lemma rawRotation_range (y x : R) : - (2 * PI) < atan2 y x - M_PI <= 0.
Proof. pose proof (atan2_range y x). unfold M_PI. lra. Qed.

Lemma quantized_capture (lockState : RCTMotionManagerState) (raw : R) :
  - (2 * PI) < raw <= 0 ->
  let displayed := rotationWithLockState lockState raw in
  (raw - displayed = 0 /\ - (2 * PI) < displayed <= 0) \/
  (displayed = kMinLockAngle /\
   0 < raw - displayed <= midLockAngle - kMinLockAngle) \/
  (displayed = kMaxLockAngle /\
   midLockAngle - kMaxLockAngle < raw - displayed < 0).
Proof.
  intros Hraw. unfold rotationWithLockState.
  destruct (state_eqb _ _); [| left; lra].
  destruct (Rgtb raw kMinLockAngle && Rleb raw midLockAngle) eqn:E1.
  - apply andb_true_iff in E1. destruct E1 as [E1 E2].
    apply Rltb_true in E1. apply Rleb_true in E2.
    right; left. lra.
  - destruct (Rgtb raw midLockAngle && Rltb raw kMaxLockAngle) eqn:E2.
    + apply andb_true_iff in E2. destruct E2 as [E2 E3].
      apply Rltb_true in E2. apply Rltb_true in E3.
      right; right. lra.
    + left. lra.
Qed.

Lemma unlockVariablesInRange_step (self : RCTMotionManager) (e : event) :
  unlockVariablesInRange self -> unlockVariablesInRange (fst (step self e)).
Proof.
  intros Hinv.
  destruct e as [h | | | t | motion | sampler t |]; simpl; try exact Hinv.
  - destruct (deviceMotionActive self); [| exact Hinv].
    unfold deviceMotionBlock.
    destruct (state_eqb _ _); [exact Hinv |].
    destruct motion as [motion |]; [| exact Hinv].
    destruct (isFlatWithGravity _); [exact Hinv |].
    unfold unlockVariablesInRange. simpl.
    apply quantized_capture. apply rawRotation_range.
  - destruct (linkScheduled _ _); [| exact Hinv].
    unfold sampleAnimator. destruct (Rgtb _ _); exact Hinv.
Qed.

Lemma unlockVariablesInRange_run (es : list event) :
  forall self : RCTMotionManager,
  unlockVariablesInRange self -> unlockVariablesInRange (fst (run self es)).
Proof.
  induction es as [| e es IH]; intros self Hinv; simpl; [exact Hinv |].
  pose proof (unlockVariablesInRange_step self e Hinv) as H1.
  destruct (step self e) as [self1 out1]. simpl in H1.
  pose proof (IH self1 H1) as H2.
  destruct (run self1 es) as [self2 out2]. exact H2.
Qed.

Lemma animated_rotation_range (self : RCTMotionManager) (t : R) :
  unlockVariablesInRange self -> 0 <= t ->
  - (2 * PI)
  < _initialRotationWhenUnlocking self
    + _rotationDeltaForUnlocking self * springAnimationFactorWithTimeElapsed t
  <= 0.
Proof.
  intros Hinv Ht.
  pose proof (spring_factor_from_0 t Ht) as [Hf1 Hf2].
  pose proof PI_bounds as [Hpi _].
  unfold unlockVariablesInRange, midLockAngle, kMinLockAngle, kMaxLockAngle
    in Hinv.
  set (f := springAnimationFactorWithTimeElapsed t) in *.
  set (i := _initialRotationWhenUnlocking self) in *.
  set (dl := _rotationDeltaForUnlocking self) in *.
  destruct Hinv as [[H1 H2] | [[H1 H2] | [H1 H2]]].
  - rewrite H1. lra.
  - rewrite H1. split; nra.
  - rewrite H1. split; nra.
Qed.

(** C8, as the specification has it, fails: here the first sample has
    gravity (-1, 0) in state Free; the smoothed pair becomes (-1, 0), the
    raw angle is atan2(-1, 0) - PI = -3PI/2, and the handler is called
    with the transform for this rotation, which is below -PI.  So is the
    minimum lock angle. *)
Lemma rotation_below_minus_pi :
  let self := startDeviceMotionUpdatesWithHandler freshManager true in
  let result := deviceMotionBlock self (Some (sampleGravity (-1) 0)) in
  let rotation := - (3 * PI / 2) in
  _lockState self = RCTMotionManagerStateFree /\
  _initialRotationWhenUnlocking (fst result) = rotation /\
  snd result = [transformWithRotation self rotation] /\
  ~ (- PI < rotation <= PI) /\
  ~ (- PI < kMinLockAngle <= PI).
Proof.
  intros self result rotation.
  pose proof PI_bounds as [Hpi Hpi2].
  assert (Hflat : isFlatWithGravity (gravity (sampleGravity (-1) 0)) = false).
  { destruct (isFlatWithGravity _) eqn:E; [| reflexivity].
    apply isFlatWithGravity_true in E. simpl in E. destruct E as [E _].
    rewrite Rabs_left in E; lra. }
  assert (Hs : _lockState self <> RCTMotionManagerStateUnlocking)
    by discriminate.
  pose proof (deviceMotionBlock_processed self (sampleGravity (-1) 0) Hs Hflat)
    as Hblock.
  simpl in Hblock. unfold minDecay, fabs in Hblock.
  rewrite (Rabs_left (-1)) in Hblock by lra.
  replace (-1 * (0.15 + - -1 * (1 - 0.15))
           + -1 * (1 - (0.15 + - -1 * (1 - 0.15)))) with (-1) in Hblock
    by lra.
  replace (0 * (0.15 + - -1 * (1 - 0.15))
           + -1 * (1 - (0.15 + - -1 * (1 - 0.15)))) with 0 in Hblock
    by lra.
  rewrite atan2_minus1_0 in Hblock. unfold M_PI in Hblock.
  replace (- (PI / 2) - PI) with rotation in Hblock
    by (subst rotation; lra).
  fold result in Hblock.
  split; [reflexivity |].
  split; [rewrite Hblock; reflexivity |].
  split; [rewrite Hblock; reflexivity |].
  subst rotation. unfold kMinLockAngle. split; intros [H1 H2]; lra.
Qed.

(** C8, amended.  In every state the manager can get into, the rotation
    of a transform the handler is called with lies in (-2PI, 0], not in
    (-PI, PI]: for a sample it is the raw angle atan2(x, y) - PI or one
    of the two lock angles, and for a tick of the unlock animation, at
    an elapsed time from 0 to 170, it is the initial angle plus delta
    times the spring factor.  Nothing brings it into (-PI, PI].  (Past
    170 nothing is said: there the spring factor of the source leaves
    the range of a double.) *)
Theorem emitted_rotation_range (calculator : OvalCalculator)
  (videoWidth videoHeight viewWidth viewHeight : R) (es : list event) :
  let made :=
    initWithVideoWidth calculator videoWidth videoHeight viewWidth viewHeight
  in
  let self := fst (run made es) in
  (forall motion : CMDeviceMotion,
      _lockState self <> RCTMotionManagerStateUnlocking ->
      isFlatWithGravity (gravity motion) = false ->
      let result := deviceMotionBlock self (Some motion) in
      let rotation := _initialRotationWhenUnlocking (fst result) in
      snd result = callHandler self (transformWithRotation self rotation) /\
      - (2 * PI) < rotation <= 0) /\
  (forall (sampler : CADisplayLink) (now : R),
      0 <= now - _animationStartTime self <= 170 ->
      let rotation :=
        _initialRotationWhenUnlocking self
        + _rotationDeltaForUnlocking self
          * springAnimationFactorWithTimeElapsed
              (now - _animationStartTime self) in
      snd (sampleAnimator self sampler now)
      = callHandler self (transformWithRotation self rotation) /\
      - (2 * PI) < rotation <= 0).
Proof.
  intros made self.
  assert (Hinv : unlockVariablesInRange self).
  { apply unlockVariablesInRange_run. left. simpl.
    pose proof PI_RGT_0. lra. }
  split.
  - intros motion Hs Hflat result rotation.
    pose proof (deviceMotionBlock_processed self motion Hs Hflat) as Hblock.
    simpl in Hblock. fold result in Hblock.
    subst rotation. rewrite Hblock. simpl.
    split; [reflexivity |].
    pose proof (quantized_capture (_lockState self) _
                  (rawRotation_range
                     (acc_x (gravity motion)
                      * (minDecay
                         + fabs (acc_x (gravity motion)) * (1 - minDecay))
                      + lastX self
                        * (1 - (minDecay
                                + fabs (acc_x (gravity motion))
                                  * (1 - minDecay))))
                     (acc_y (gravity motion)
                      * (minDecay
                         + fabs (acc_x (gravity motion)) * (1 - minDecay))
                      + lastY self
                        * (1 - (minDecay
                                + fabs (acc_x (gravity motion))
                                  * (1 - minDecay)))))) as Hq.
    pose proof PI_bounds as [Hpi _].
    unfold midLockAngle, kMinLockAngle, kMaxLockAngle in Hq.
    simpl in Hq. destruct Hq as [[_ H] | [[H _] | [H _]]].
    + exact H.
    + rewrite H. lra.
    + rewrite H. lra.
  - intros sampler now [Hnow _] rotation.
    split.
    + unfold sampleAnimator. destruct (Rgtb _ _); reflexivity.
    + apply animated_rotation_range; [exact Hinv | lra].
Qed.

Lemma emitted_rotation_range_witness :
  let locked :=
    fst (run (initWithVideoWidth unitCalculator 1280 720 390 200)
           [Start true; Lock]) in
  let unlocking :=
    fst (run (initWithVideoWidth unitCalculator 1280 720 390 200)
           [Start true; Lock; UnLock 0]) in
  - (2 * PI)
  < _initialRotationWhenUnlocking
      (fst (deviceMotionBlock locked (Some (sampleGravity 1 0)))) <= 0 /\
  - (2 * PI)
  < _initialRotationWhenUnlocking unlocking
    + _rotationDeltaForUnlocking unlocking
      * springAnimationFactorWithTimeElapsed
          (0.5 - _animationStartTime unlocking) <= 0.
Proof.
  split.
  - pose proof (emitted_rotation_range unitCalculator 1280 720 390 200
                  [Start true; Lock]) as [H _].
    apply (H (sampleGravity 1 0)).
    + discriminate.
    + apply (notFlat_x 1 0). lra.
  - pose proof (emitted_rotation_range unitCalculator 1280 720 390 200
                  [Start true; Lock; UnLock 0]) as [_ H].
    apply (H O 0.5). simpl. lra.
Defined.

(** * Further properties *)

(** ** More on the quantizer *)

(** X1.  Quantizing twice is quantizing once: a displayed angle is
    displayed as itself. *)
Theorem rotationWithLockState_idempotent (lockState : RCTMotionManagerState)
  (r : R) :
  rotationWithLockState lockState (rotationWithLockState lockState r)
  = rotationWithLockState lockState r.
Proof.
  pose proof lock_angles_ordered as [Hlo Hhi].
  unfold rotationWithLockState.
  destruct (state_eqb lockState RCTMotionManagerStateLocked); [| reflexivity].
  unfold midLockAngle, kMinLockAngle, kMaxLockAngle in *. cmp.
Qed.

(** X2.  The quantizer keeps the order of angles, in every state. *)
Theorem rotationWithLockState_monotone (lockState : RCTMotionManagerState)
  (r1 r2 : R) :
  r1 <= r2 ->
  rotationWithLockState lockState r1 <= rotationWithLockState lockState r2.
Proof.
  intros H. pose proof lock_angles_ordered as [Hlo Hhi].
  unfold rotationWithLockState.
  destruct (state_eqb lockState RCTMotionManagerStateLocked); [| exact H].
  unfold midLockAngle, kMinLockAngle, kMaxLockAngle in *. cmp.
Qed.

Lemma rotationWithLockState_monotone_witness :
  rotationWithLockState RCTMotionManagerStateLocked (-4)
  <= rotationWithLockState RCTMotionManagerStateLocked (-1).
Proof.
  apply (rotationWithLockState_monotone RCTMotionManagerStateLocked (-4) (-1)).
  lra.
Defined.

(** X3.  In state Locked the displayed angle is never strictly between
    the two lock angles, and it is at most half the width of the band
    away from the raw angle. *)
Theorem rotationWithLockState_snap (r : R) :
  let shown := rotationWithLockState RCTMotionManagerStateLocked r in
  (shown <= kMinLockAngle \/ kMaxLockAngle <= shown) /\
  Rabs (shown - r) <= (kMaxLockAngle - kMinLockAngle) / 2.
Proof.
  pose proof lock_angles_ordered as [Hlo Hhi].
  unfold rotationWithLockState. simpl.
  unfold midLockAngle, kMinLockAngle, kMaxLockAngle in *.
  split.
  - destruct (Rgtb r (-6.074) && Rleb r ((-6.074 + -0.209) / 2)) eqn:E1;
      [left; lra |].
    destruct (Rgtb r ((-6.074 + -0.209) / 2) && Rltb r (-0.209)) eqn:E2;
      [right; lra |].
    apply andb_false_iff in E1. apply andb_false_iff in E2.
    unfold Rgtb in *.
    destruct E1 as [E1 | E1]; [apply Rltb_false in E1; left; lra |].
    apply Rleb_false in E1.
    destruct E2 as [E2 | E2]; [apply Rltb_false in E2; lra |].
    apply Rltb_false in E2. right. lra.
  - apply Rabs_le. cmp.
Qed.

(** ** More on the smoother *)

Lemma decay_range (x : R) :
  Rabs x <= 1 -> 0.15 <= minDecay + fabs x * (1 - minDecay) <= 1.
Proof.
  intros H. unfold minDecay, fabs. pose proof (Rabs_pos x). split; lra.
Qed.

Lemma blend_between (s old k : R) :
  0 <= k <= 1 ->
  Rmin old s <= s * k + old * (1 - k) <= Rmax old s.
Proof.
  intros Hk. unfold Rmin, Rmax. destruct (Rle_dec old s); split; nra.
Qed.

Lemma Rabs_bounds (x : R) : Rabs x <= 1 <-> -1 <= x <= 1.
Proof.
  split.
  - intros H. unfold Rabs in H. destruct (Rcase_abs x); lra.
  - intros H. apply Rabs_le. lra.
Qed.

(** X4.  When a sample with [|x| <= 1] is processed, each smoothed
    component ends up between its old value and the sample's component:
    the filter does not overshoot. *)
Theorem smoothed_between (self : RCTMotionManager) (motion : CMDeviceMotion) :
  _lockState self <> RCTMotionManagerStateUnlocking ->
  isFlatWithGravity (gravity motion) = false ->
  Rabs (acc_x (gravity motion)) <= 1 ->
  let after := fst (deviceMotionBlock self (Some motion)) in
  Rmin (lastX self) (acc_x (gravity motion)) <= lastX after
  <= Rmax (lastX self) (acc_x (gravity motion)) /\
  Rmin (lastY self) (acc_y (gravity motion)) <= lastY after
  <= Rmax (lastY self) (acc_y (gravity motion)).
Proof.
  intros Hs Hflat Hx after. subst after.
  rewrite (deviceMotionBlock_processed self motion Hs Hflat). simpl.
  pose proof (decay_range _ Hx) as Hd.
  split; apply blend_between; lra.
Qed.

Lemma smoothed_between_witness :
  let self := startDeviceMotionUpdatesWithHandler freshManager true in
  let after := fst (deviceMotionBlock self (Some (sampleGravity 0.5 0.5))) in
  Rmin (-1) 0.5 <= lastX after <= Rmax (-1) 0.5.
Proof.
  pose proof (smoothed_between
                (startDeviceMotionUpdatesWithHandler freshManager true)
                (sampleGravity 0.5 0.5)) as H.
  simpl in H. destruct H as [H _].
  - discriminate.
  - apply (notFlat_x 0.5 0.5). lra.
  - apply Rabs_bounds. lra.
  - exact H.
Defined.

Lemma smoothedInRange_step (self : RCTMotionManager) (e : event) :
  smoothedInRange self -> gravityNormalised e ->
  smoothedInRange (fst (step self e)).
Proof.
  intros Hin He.
  destruct e as [h | | | t | motion | sampler t |]; simpl; try exact Hin.
  - unfold smoothedInRange. simpl. lra.
  - destruct (deviceMotionActive self); [| exact Hin].
    destruct (state_eqb (_lockState self) RCTMotionManagerStateUnlocking)
      eqn:Es.
    { apply state_eqb_eq in Es.
      rewrite (deviceMotionBlock_unlocking self motion Es). exact Hin. }
    apply state_eqb_neq in Es.
    destruct motion as [motion |].
    2:{ unfold deviceMotionBlock. destruct (state_eqb _ _); exact Hin. }
    destruct (isFlatWithGravity (gravity motion)) eqn:Ef.
    { unfold deviceMotionBlock. rewrite Ef.
      destruct (state_eqb _ _); exact Hin. }
    simpl in He. destruct He as [Hx Hy].
    rewrite (deviceMotionBlock_processed self motion Es Ef).
    unfold smoothedInRange. simpl.
    pose proof (decay_range _ Hx) as Hd.
    assert (Hd' : 0 <= minDecay + fabs (acc_x (gravity motion))
                                  * (1 - minDecay) <= 1) by lra.
    pose proof (blend_between (acc_x (gravity motion)) (lastX self) _ Hd')
      as [A1 A2].
    pose proof (blend_between (acc_y (gravity motion)) (lastY self) _ Hd')
      as [B1 B2].
    apply Rabs_bounds in Hx. apply Rabs_bounds in Hy.
    destruct Hin as [Hi1 Hi2].
    unfold Rmin, Rmax in *.
    destruct (Rle_dec (lastX self) (acc_x (gravity motion)));
      destruct (Rle_dec (lastY self) (acc_y (gravity motion))); split; lra.
  - destruct (linkScheduled _ _); [| exact Hin].
    unfold sampleAnimator. destruct (Rgtb _ _); exact Hin.
Qed.

(** X5.  If the smoothed pair is in [-1, 1] x [-1, 1] (as it is after
    the updates are started) and every sample has components of size at
    most 1, the smoothed pair stays in that square whatever happens. *)
Theorem smoothed_stays_in_range (self : RCTMotionManager) (es : list event) :
  smoothedInRange self -> Forall gravityNormalised es ->
  smoothedInRange (fst (run self es)).
Proof.
  revert self. induction es as [| e es IH]; intros self Hin Hall; simpl;
    [exact Hin |].
  inversion Hall as [| ? ? He Hes]; subst.
  pose proof (smoothedInRange_step self e Hin He) as H1.
  destruct (step self e) as [self1 out1]. simpl in H1.
  pose proof (IH self1 H1 Hes) as H2.
  destruct (run self1 es) as [self2 out2]. exact H2.
Qed.

Lemma smoothed_stays_in_range_witness :
  smoothedInRange
    (fst (run (startDeviceMotionUpdatesWithHandler freshManager true)
            [DeviceMotion (Some (sampleGravity 1 0)); Lock;
             DeviceMotion (Some (sampleGravity 0 (-1))); UnLock 0])).
Proof.
  apply (smoothed_stays_in_range
           (startDeviceMotionUpdatesWithHandler freshManager true)).
  - unfold smoothedInRange. simpl. lra.
  - repeat (apply Forall_cons || apply Forall_nil); simpl;
      try exact I; split; apply Rabs_bounds; lra.
Defined.

(** X6.  A sample with [|x| = 1] replaces the smoothed pair by the
    sample: nothing of the earlier samples, or of the initial (-1, -1),
    is left. *)
Theorem full_tilt_replaces_smoothed (self : RCTMotionManager)
  (motion : CMDeviceMotion) :
  _lockState self <> RCTMotionManagerStateUnlocking ->
  Rabs (acc_x (gravity motion)) = 1 ->
  let after := fst (deviceMotionBlock self (Some motion)) in
  lastX after = acc_x (gravity motion) /\
  lastY after = acc_y (gravity motion).
Proof.
  intros Hs Hx after. subst after.
  assert (Hflat : isFlatWithGravity (gravity motion) = false).
  { destruct (isFlatWithGravity _) eqn:E; [| reflexivity].
    apply isFlatWithGravity_true in E. lra. }
  rewrite (deviceMotionBlock_processed self motion Hs Hflat). simpl.
  unfold minDecay, fabs. rewrite Hx. split; lra.
Qed.

Lemma full_tilt_replaces_smoothed_witness :
  let self := startDeviceMotionUpdatesWithHandler freshManager true in
  let after := fst (deviceMotionBlock self (Some (sampleGravity (-1) 0.3))) in
  lastX after = -1 /\ lastY after = 0.3.
Proof.
  apply (full_tilt_replaces_smoothed
           (startDeviceMotionUpdatesWithHandler freshManager true)
           (sampleGravity (-1) 0.3)).
  - discriminate.
  - simpl. rewrite Rabs_left; lra.
Defined.

Lemma repeated_sample_state (n : nat) :
  forall (self : RCTMotionManager) (motion : CMDeviceMotion),
  deviceMotionActive self = true ->
  _lockState self <> RCTMotionManagerStateUnlocking ->
  isFlatWithGravity (gravity motion) = false ->
  let k := 1 - (minDecay + fabs (acc_x (gravity motion)) * (1 - minDecay)) in
  let after := fst (run self (repeat (DeviceMotion (Some motion)) n)) in
  lastX after - acc_x (gravity motion)
  = k ^ n * (lastX self - acc_x (gravity motion)) /\
  lastY after - acc_y (gravity motion)
  = k ^ n * (lastY self - acc_y (gravity motion)).
Proof.
  induction n as [| n IH]; intros self motion Hon Hs Hflat k after.
  - subst after. simpl. split; lra.
  - subst after. simpl. rewrite Hon.
    rewrite (deviceMotionBlock_processed self motion Hs Hflat).
    match goal with
    | |- context [run ?m _] => set (self1 := m)
    end.
    pose proof (IH self1 motion Hon Hs Hflat) as [HX HY].
    destruct (run self1 (repeat (DeviceMotion (Some motion)) n))
      as [self2 out2].
    simpl in *. fold k in HX, HY. rewrite HX, HY.
    subst k. split; ring.
Qed.

(** X7.  When the same sample (not flat, [|x| <= 1]) is delivered n
    times, the distance of each smoothed component from the sample's is
    the initial distance times (1 - decay)^n, hence at most 0.85^n times
    the initial distance: the smoothed pair converges to the sample. *)
Theorem repeated_sample_converges (self : RCTMotionManager)
  (motion : CMDeviceMotion) (n : nat) :
  deviceMotionActive self = true ->
  _lockState self <> RCTMotionManagerStateUnlocking ->
  isFlatWithGravity (gravity motion) = false ->
  Rabs (acc_x (gravity motion)) <= 1 ->
  let decay := 0.15 + Rabs (acc_x (gravity motion)) * (1 - 0.15) in
  let after := fst (run self (repeat (DeviceMotion (Some motion)) n)) in
  lastX after - acc_x (gravity motion)
  = (1 - decay) ^ n * (lastX self - acc_x (gravity motion)) /\
  lastY after - acc_y (gravity motion)
  = (1 - decay) ^ n * (lastY self - acc_y (gravity motion)) /\
  Rabs (lastX after - acc_x (gravity motion))
  <= 0.85 ^ n * Rabs (lastX self - acc_x (gravity motion)) /\
  Rabs (lastY after - acc_y (gravity motion))
  <= 0.85 ^ n * Rabs (lastY self - acc_y (gravity motion)).
Proof.
  intros Hon Hs Hflat Hx decay after.
  pose proof (repeated_sample_state n self motion Hon Hs Hflat) as [HX HY].
  simpl in HX, HY. fold after in HX, HY.
  pose proof (decay_range _ Hx) as Hd.
  change (minDecay + fabs (acc_x (gravity motion)) * (1 - minDecay))
    with decay in HX, HY, Hd.
  assert (Hk : 0 <= 1 - decay <= 0.85) by lra.
  assert (Hpow : 0 <= (1 - decay) ^ n <= 0.85 ^ n).
  { split; [apply pow_le; lra | apply pow_incr; lra]. }
  split; [exact HX | split; [exact HY |]].
  rewrite HX, HY, !Rabs_mult, (Rabs_pos_eq ((1 - decay) ^ n)) by lra.
  split; apply Rmult_le_compat_r; try apply Rabs_pos; lra.
Qed.

Lemma repeated_sample_converges_witness :
  let self := startDeviceMotionUpdatesWithHandler freshManager true in
  let after :=
    fst (run self (repeat (DeviceMotion (Some (sampleGravity 0.6 0.1))) 30))
  in
  Rabs (lastX after - 0.6) <= 0.85 ^ 30 * Rabs (-1 - 0.6).
Proof.
  pose proof (repeated_sample_converges
                (startDeviceMotionUpdatesWithHandler freshManager true)
                (sampleGravity 0.6 0.1) 30) as H.
  destruct H as (_ & _ & H & _).
  - reflexivity.
  - discriminate.
  - apply (notFlat_x 0.6 0.1). lra.
  - apply Rabs_bounds. simpl. lra.
  - exact H.
Defined.

(** ** The frameless counter *)





Lemma run_invariant (P : RCTMotionManager -> Prop) :
  (forall m e, P m -> P (fst (step m e))) ->
  forall es m, P m -> P (fst (run m es)).
Proof.
  intros Hstep. induction es as [| e es IH]; intros m Hm; simpl; [exact Hm |].
  pose proof (Hstep m e Hm) as H1.
  destruct (step m e) as [m1 out1]. simpl in H1.
  pose proof (IH m1 H1) as H2.
  destruct (run m1 es) as [m2 out2]. exact H2.
Qed.

(** ** More on the unlock animation *)

Lemma spring_factor_at_0 : springAnimationFactorWithTimeElapsed 0 = 0.
Proof.
  rewrite spring_factor_decomposed.
  rewrite !Rmult_0_r, exp2_0, sin_0, cos_0. lra.
Qed.

Lemma sampleAnimator_calls (self : RCTMotionManager) (sampler : CADisplayLink)
  (now : R) :
  snd (sampleAnimator self sampler now)
  = callHandler self
      (transformWithRotation self
         (_initialRotationWhenUnlocking self
          + _rotationDeltaForUnlocking self
            * springAnimationFactorWithTimeElapsed
                (now - _animationStartTime self))).
Proof. unfold sampleAnimator. destruct (Rgtb _ _); reflexivity. Qed.

(** No event changes the sizes or the calculator, so the transform for
    a rotation is the same before and after. *)
Lemma step_keeps_transform (self : RCTMotionManager) (e : event)
  (rotation : R) :
  transformWithRotation (fst (step self e)) rotation
  = transformWithRotation self rotation.
Proof.
  destruct e as [h | | | t | motion | sampler t |]; simpl; try reflexivity.
  - destruct (deviceMotionActive self); [| reflexivity].
    unfold deviceMotionBlock.
    destruct (state_eqb _ _); [reflexivity |].
    destruct motion as [motion |]; [| reflexivity].
    destruct (isFlatWithGravity _); reflexivity.
  - destruct (linkScheduled _ _); [| reflexivity].
    unfold sampleAnimator. destruct (Rgtb _ _); reflexivity.
Qed.

Lemma run_keeps_transform (es : list event) :
  forall (self : RCTMotionManager) (rotation : R),
  transformWithRotation (fst (run self es)) rotation
  = transformWithRotation self rotation.
Proof.
  induction es as [| e es IH]; intros self rotation; simpl; [reflexivity |].
  pose proof (step_keeps_transform self e rotation) as H1.
  destruct (step self e) as [self1 out1]. simpl in H1.
  pose proof (IH self1 rotation) as H2.
  destruct (run self1 es) as [self2 out2]. simpl in *. congruence.
Qed.

(** X10.  When no tick has come since the last processed sample, a tick
    of the new display link at the very instant of [unLock] calls the
    handler with the same transform as that sample did and changes
    nothing: the animation starts where the display is. *)
Theorem animation_starts_at_displayed (self0 : RCTMotionManager)
  (motion : CMDeviceMotion) (es : list event) (now : R) :
  _lockState self0 <> RCTMotionManagerStateUnlocking ->
  isFlatWithGravity (gravity motion) = false ->
  noAngleComputed (fst (deviceMotionBlock self0 (Some motion))) es ->
  Forall notTick es ->
  let ticked := fst (deviceMotionBlock self0 (Some motion)) in
  let displayed := _initialRotationWhenUnlocking ticked in
  let before := fst (run ticked es) in
  let unlocking := unLock before now in
  snd (deviceMotionBlock self0 (Some motion))
  = callHandler self0 (transformWithRotation self0 displayed) /\
  snd (run ticked es) = [] /\
  step unlocking (DisplayLinkTick (nextDisplayLink before) now)
  = (unlocking,
     callHandler before (transformWithRotation self0 displayed)).
Proof.
  intros Hs Hflat Hes Hticks ticked displayed before unlocking.
  pose proof (deviceMotionBlock_processed self0 motion Hs Hflat) as Hblock.
  simpl in Hblock.
  pose proof (noAngleComputed_keeps es ticked Hes) as [Hi _].
  fold before in Hi.
  split; [| split; [exact (noAngleComputed_silent es ticked Hes Hticks) |]].
  { rewrite Hblock. subst displayed ticked. rewrite Hblock. reflexivity. }
  assert (Htr : transformWithRotation before displayed
                = transformWithRotation self0 displayed).
  { subst before. rewrite run_keeps_transform.
    subst ticked. rewrite Hblock. reflexivity. }
  unfold step.
  assert (Hl : linkScheduled (nextDisplayLink before) (runLoop unlocking)
               = true)
    by (apply linkScheduled_true; left; reflexivity).
  rewrite Hl.
  rewrite (surjective_pairing (sampleAnimator _ _ _)).
  rewrite sampleAnimator_early by (simpl; lra).
  rewrite sampleAnimator_calls. simpl.
  replace (now - now) with 0 by lra.
  rewrite spring_factor_at_0, Rmult_0_r, Rplus_0_r, Hi.
  fold displayed. unfold callHandler. simpl.
  change (transformWithRotation unlocking displayed)
    with (transformWithRotation before displayed).
  rewrite Htr. reflexivity.
Qed.

Lemma animation_starts_at_displayed_witness :
  let started := startDeviceMotionUpdatesWithHandler freshManager true in
  let ticked :=
    fst (deviceMotionBlock started (Some (sampleGravity 0.5 0.5))) in
  let before := fst (run ticked [Lock]) in
  step (unLock before 7) (DisplayLinkTick (nextDisplayLink before) 7)
  = (unLock before 7,
     callHandler before
       (transformWithRotation started (_initialRotationWhenUnlocking ticked))).
Proof.
  pose proof (animation_starts_at_displayed
                (startDeviceMotionUpdatesWithHandler freshManager true)
                (sampleGravity 0.5 0.5) [Lock] 7) as H.
  destruct H as (_ & _ & H).
  - discriminate.
  - apply (notFlat_x 0.5 0.5). lra.
  - simpl. split; exact I.
  - repeat constructor.
  - exact H.
Defined.




Lemma window_after_unlock (self : RCTMotionManager) (now : R)
  (ws : list event) :
  Forall (windowEvent now) ws ->
  fst (run self (UnLock now :: ws)) = unLock self now.
Proof.
  intros Hws.
  change (UnLock now :: ws) with ([UnLock now] ++ ws).
  rewrite run_app. cbn [fst]. rewrite run_single. cbn [step fst].
  apply (window_keeps ws (unLock self now)); [exact Hws | reflexivity].
Qed.


(** X12.  When the last processed sample was taken in state Free, the
    unlock animation does not move: every tick at an elapsed time from 0
    to 170 calls the handler with the transform of that sample's raw
    angle, whatever samples and ticks came in the window. *)
Theorem unlock_without_snap_freezes (self0 : RCTMotionManager)
  (motion : CMDeviceMotion) (es : list event) (sampler : CADisplayLink)
  (now : R) :
  _lockState self0 = RCTMotionManagerStateFree ->
  isFlatWithGravity (gravity motion) = false ->
  noAngleComputed (fst (deviceMotionBlock self0 (Some motion))) es ->
  let ticked := fst (deviceMotionBlock self0 (Some motion)) in
  let rawAngle := atan2 (lastX ticked) (lastY ticked) - M_PI in
  let self := fst (run ticked es) in
  0 <= now - _animationStartTime self <= 170 ->
  snd (sampleAnimator self sampler now)
  = callHandler self (transformWithRotation self rawAngle).
Proof.
  intros Hfree Hflat Hes ticked rawAngle self _.
  assert (Hs : _lockState self0 <> RCTMotionManagerStateUnlocking)
    by (rewrite Hfree; discriminate).
  rewrite sampleAnimator_calls.
  pose proof (noAngleComputed_keeps es ticked Hes) as [Hi Hd].
  fold self in Hi, Hd. rewrite Hi, Hd.
  pose proof (deviceMotionBlock_processed self0 motion Hs Hflat) as Hblock.
  simpl in Hblock.
  subst rawAngle ticked. rewrite Hblock.
  cbn [fst lastX lastY storeSample _initialRotationWhenUnlocking
       _rotationDeltaForUnlocking].
  rewrite Hfree.
  change (rotationWithLockState RCTMotionManagerStateFree ?r) with r.
  match goal with
  | |- context [?r + (?r - ?r) * ?f] =>
      replace (r + (r - r) * f) with r by ring
  end.
  reflexivity.
Qed.

Lemma unlock_without_snap_freezes_witness :
  let started := startDeviceMotionUpdatesWithHandler freshManager true in
  let ticked := fst (deviceMotionBlock started (Some (sampleGravity 1 0))) in
  let rawAngle := atan2 (lastX ticked) (lastY ticked) - M_PI in
  let self :=
    fst (run ticked
           [UnLock 0; DeviceMotion (Some (sampleGravity 0 1));
            DisplayLinkTick O 0.25]) in
  snd (sampleAnimator self O 0.5)
  = callHandler self (transformWithRotation self rawAngle).
Proof.
  apply (unlock_without_snap_freezes
           (startDeviceMotionUpdatesWithHandler freshManager true)
           (sampleGravity 1 0)
           [UnLock 0; DeviceMotion (Some (sampleGravity 0 1));
            DisplayLinkTick O 0.25] O 0.5).
  - reflexivity.
  - apply (notFlat_x 1 0). lra.
  - cbn [noAngleComputed keepsAngle step fst].
    split; [exact I | split; [right; left; reflexivity |]].
    split; exact I.
  - rewrite window_after_unlock by (repeat constructor; simpl; lra).
    simpl. lra.
Defined.

(** ** Display links *)

Lemma remove_keeps_NoDup (x : nat) (l : list nat) :
  NoDup l -> NoDup (remove Nat.eq_dec x l).
Proof.
  induction 1 as [| y l Hy Hl IH]; simpl; [constructor |].
  destruct (Nat.eq_dec x y); [exact IH |].
  constructor; [| exact IH].
  intros Hin. apply in_remove in Hin. tauto.
Qed.

Lemma remove_keeps_Forall (P : nat -> Prop) (x : nat) (l : list nat) :
  Forall P l -> Forall P (remove Nat.eq_dec x l).
Proof.
  intros H. apply Forall_forall. intros y Hy.
  apply in_remove in Hy. rewrite Forall_forall in H. apply H. tauto.
Qed.

Lemma linksFresh_step (self : RCTMotionManager) (e : event) :
  linksFresh self -> linksFresh (fst (step self e)).
Proof.
  intros [Hnd Hlt].
  destruct e as [h | | | t | motion | sampler t |]; simpl;
    try (split; assumption).
  - split; simpl.
    + constructor; [| exact Hnd].
      intros Hin. rewrite Forall_forall in Hlt.
      specialize (Hlt _ Hin). lia.
    + constructor; [lia |].
      eapply Forall_impl; [| exact Hlt]. simpl. intros; lia.
  - destruct (deviceMotionActive self); [| split; assumption].
    unfold deviceMotionBlock.
    destruct (state_eqb _ _); [split; assumption |].
    destruct motion as [motion |]; [| split; assumption].
    destruct (isFlatWithGravity _); split; assumption.
  - destruct (linkScheduled _ _); [| split; assumption].
    unfold sampleAnimator. destruct (Rgtb _ _); [| split; assumption].
    split; simpl.
    + apply remove_keeps_NoDup. exact Hnd.
    + apply remove_keeps_Forall. exact Hlt.
Qed.

(** X13.  Whatever has happened to a manager since it was made, the
    scheduled display links are pairwise distinct, each was made by an
    earlier [unLock], and the link the next [unLock] makes is not yet
    scheduled. *)
Theorem display_links_distinct (calculator : OvalCalculator)
  (videoWidth videoHeight viewWidth viewHeight : R) (es : list event) :
  let self :=
    fst (run (initWithVideoWidth calculator videoWidth videoHeight
                viewWidth viewHeight) es) in
  NoDup (runLoop self) /\
  (forall link, In link (runLoop self) -> (link < nextDisplayLink self)%nat) /\
  linkScheduled (nextDisplayLink self) (runLoop self) = false.
Proof.
  intros self.
  assert (H : linksFresh self).
  { apply (run_invariant linksFresh linksFresh_step).
    split; simpl; constructor. }
  destruct H as [Hnd Hlt]. rewrite Forall_forall in Hlt.
  split; [exact Hnd | split; [exact Hlt |]].
  destruct (linkScheduled _ _) eqn:E; [| reflexivity].
  apply linkScheduled_true in E. specialize (Hlt _ E). lia.
Qed.

Lemma display_links_distinct_witness :
  let self :=
    fst (run (initWithVideoWidth unitCalculator 1280 720 390 200)
           [UnLock 0; UnLock 1]) in
  (1 < nextDisplayLink self)%nat.
Proof.
  pose proof (display_links_distinct unitCalculator 1280 720 390 200
                [UnLock 0; UnLock 1]) as (_ & H & _).
  apply (H 1%nat). simpl. left. reflexivity.
Defined.

Lemma unlockingHasLink_step (self : RCTMotionManager) (e : event) :
  unlockingHasLink self -> unlockingHasLink (fst (step self e)).
Proof.
  intros Hinv.
  destruct e as [h | | | t | motion | sampler t |]; simpl; try exact Hinv.
  - intros Hu. discriminate.
  - intros _. exists (nextDisplayLink self). split; [reflexivity |].
    apply linkScheduled_true. left. reflexivity.
  - destruct (deviceMotionActive self); [| exact Hinv].
    unfold deviceMotionBlock.
    destruct (state_eqb _ _); [exact Hinv |].
    destruct motion as [motion |]; [| exact Hinv].
    destruct (isFlatWithGravity _); exact Hinv.
  - destruct (linkScheduled _ _); [| exact Hinv].
    unfold sampleAnimator. destruct (Rgtb _ _); [| exact Hinv].
    intros Hu. discriminate.
Qed.

(** X14.  Whenever a manager is in state Unlocking, the display link
    made by the last [unLock] is scheduled, and its first tick with
    elapsed time above 1.0 sets the state to Free: the state cannot be
    stuck in Unlocking with no link left to end it. *)
Theorem unlocking_can_always_end (calculator : OvalCalculator)
  (videoWidth videoHeight viewWidth viewHeight : R) (es : list event) :
  let self :=
    fst (run (initWithVideoWidth calculator videoWidth videoHeight
                viewWidth viewHeight) es) in
  _lockState self = RCTMotionManagerStateUnlocking ->
  exists link : CADisplayLink,
    _animatorSampler self = Some link /\
    linkScheduled link (runLoop self) = true /\
    forall now : R,
      now - _animationStartTime self > 1 ->
      _lockState (fst (step self (DisplayLinkTick link now)))
      = RCTMotionManagerStateFree.
Proof.
  intros self Hu.
  assert (H : unlockingHasLink self).
  { apply (run_invariant unlockingHasLink unlockingHasLink_step).
    intros Hbad. discriminate. }
  destruct (H Hu) as (link & Hs & Hl).
  exists link. split; [exact Hs | split; [exact Hl |]].
  intros now Hnow. rewrite (step_tick_late self link now Hl Hnow).
  reflexivity.
Qed.

Lemma unlocking_can_always_end_witness :
  let self :=
    fst (run (initWithVideoWidth unitCalculator 1280 720 390 200)
           [Start true; Lock; UnLock 0]) in
  exists link : CADisplayLink,
    linkScheduled link (runLoop self) = true /\
    _lockState (fst (step self (DisplayLinkTick link 2)))
    = RCTMotionManagerStateFree.
Proof.
  pose proof (unlocking_can_always_end unitCalculator 1280 720 390 200
                [Start true; Lock; UnLock 0]) as H.
  destruct H as (link & _ & Hl & Hfree); [reflexivity |].
  exists link. split; [exact Hl |].
  apply Hfree. simpl. lra.
Defined.

(** X15.  A scheduled display link stays scheduled through every event
    except its own tick with elapsed time above 1.0: neither stopping the
    updates, nor [lock], nor another [unLock], nor the tick of another
    link takes it off the run loop. *)
Theorem display_link_only_ends_itself (self : RCTMotionManager)
  (link : CADisplayLink) (e : event) :
  linkScheduled link (runLoop self) = true ->
  notOwnLateTick self link e ->
  linkScheduled link (runLoop (fst (step self e))) = true.
Proof.
  intros Hl He.
  destruct e as [h | | | t | motion | sampler t |]; simpl; try exact Hl.
  - rewrite Hl. apply orb_true_r.
  - destruct (deviceMotionActive self); [| exact Hl].
    unfold deviceMotionBlock.
    destruct (state_eqb _ _); [exact Hl |].
    destruct motion as [motion |]; [| exact Hl].
    destruct (isFlatWithGravity _); exact Hl.
  - destruct (linkScheduled sampler (runLoop self)); [| exact Hl].
    unfold sampleAnimator. destruct (Rgtb _ _) eqn:E; [| exact Hl].
    simpl. apply linkScheduled_true. apply linkScheduled_true in Hl.
    unfold invalidate. apply in_in_remove; [| exact Hl].
    intros Heq. simpl in He. apply Rltb_true in E.
    symmetry in Heq. specialize (He Heq). lra.
Qed.

Lemma display_link_only_ends_itself_witness :
  let self :=
    fst (run (initWithVideoWidth unitCalculator 1280 720 390 200)
           [UnLock 0; UnLock 1]) in
  linkScheduled O (runLoop (fst (step self (DisplayLinkTick 1%nat 5)))) = true
  /\ linkScheduled O (runLoop (fst (step self Stop))) = true.
Proof.
  split.
  - apply (display_link_only_ends_itself
             (fst (run (initWithVideoWidth unitCalculator 1280 720 390 200)
                     [UnLock 0; UnLock 1])) O (DisplayLinkTick 1%nat 5)).
    + reflexivity.
    + simpl. intros H. discriminate.
  - apply (display_link_only_ends_itself
             (fst (run (initWithVideoWidth unitCalculator 1280 720 390 200)
                     [UnLock 0; UnLock 1])) O Stop).
    + reflexivity.
    + exact I.
Defined.

(** ** The handler *)

(** X16.  While no handler is installed (before the updates are started,
    or after they were started with a nil handler) no event makes a
    transform be delivered. *)
Theorem no_handler_no_calls (es : list event) :
  forall self : RCTMotionManager,
  _updatesHandler self = false ->
  Forall notStartWithHandler es ->
  snd (run self es) = [].
Proof.
  induction es as [| e es IH]; intros self Hno Hall; simpl; [reflexivity |].
  inversion Hall as [| ? ? He Hes]; subst.
  assert (K : _updatesHandler (fst (step self e)) = false /\
              snd (step self e) = []).
  { destruct e as [h | | | t | motion | sampler t |]; simpl;
      try (split; [exact Hno | reflexivity]).
    - destruct h; [contradiction | split; reflexivity].
    - destruct (deviceMotionActive self);
        [| split; [exact Hno | reflexivity]].
      unfold deviceMotionBlock.
      destruct (state_eqb _ _); [split; [exact Hno | reflexivity] |].
      destruct motion as [motion |]; [| split; [exact Hno | reflexivity]].
      destruct (isFlatWithGravity _); [split; [exact Hno | reflexivity] |].
      unfold callHandler. simpl. rewrite Hno. split; reflexivity.
    - destruct (linkScheduled _ _); [| split; [exact Hno | reflexivity]].
      unfold sampleAnimator, callHandler. rewrite Hno.
      destruct (Rgtb _ _); split; solve [exact Hno | reflexivity]. }
  destruct (step self e) as [self1 out1]. simpl in K. destruct K as [K1 K2].
  pose proof (IH self1 K1 Hes) as J.
  destruct (run self1 es) as [self2 out2]. simpl in *.
  rewrite K2, J. reflexivity.
Qed.

Lemma no_handler_no_calls_witness :
  snd (run freshManager
         [UnLock 0; DisplayLinkTick O 0.5; Start false;
          DeviceMotion (Some (sampleGravity 1 0)); DisplayLinkTick O 2])
  = [].
Proof.
  apply (no_handler_no_calls
           [UnLock 0; DisplayLinkTick O 0.5; Start false;
            DeviceMotion (Some (sampleGravity 1 0)); DisplayLinkTick O 2]
           freshManager).
  - reflexivity.
  - repeat (apply Forall_cons || apply Forall_nil); exact I.
Defined.

Lemma step_calls_at_most_once (self : RCTMotionManager) (e : event) :
  (List.length (snd (step self e)) <= 1)%nat.
Proof.
  destruct e as [h | | | t | motion | sampler t |]; simpl; try lia.
  - destruct (deviceMotionActive self); [| simpl; lia].
    unfold deviceMotionBlock.
    destruct (state_eqb _ _); [simpl; lia |].
    destruct motion as [motion |]; [| simpl; lia].
    destruct (isFlatWithGravity _); [simpl; lia |].
    unfold callHandler. simpl. destruct (_updatesHandler self); simpl; lia.
  - destruct (linkScheduled _ _); [| simpl; lia].
    rewrite sampleAnimator_calls. unfold callHandler.
    destruct (_updatesHandler self); simpl; lia.
Qed.

(** X17.  No event makes the handler be called twice: over any sequence
    of events there are at most as many calls as events. *)
Theorem at_most_one_call_per_event (es : list event) :
  forall self : RCTMotionManager,
  (List.length (snd (run self es)) <= List.length es)%nat.
Proof.
  induction es as [| e es IH]; intros self; simpl; [lia |].
  pose proof (step_calls_at_most_once self e) as H1.
  destruct (step self e) as [self1 out1]. simpl in H1.
  pose proof (IH self1) as H2.
  destruct (run self1 es) as [self2 out2]. simpl in *.
  rewrite length_app. lia.
Qed.

(** ** More on the transform *)

(** X18.  The transform for a rotation is a uniform scaling composed with
    a rotation and nothing else: a = d, b = -c, no translation, and its
    determinant, like a^2 + b^2, is the square of the scale the
    calculator answered. *)
Theorem transform_is_scaled_rotation (self : RCTMotionManager) (rotation : R) :
  let scale :=
    get_scaleWithDouble (_scaler self) (_viewWidth self) (_viewHeight self)
      (_videoWidth self) (_videoHeight self) rotation in
  let t := transformWithRotation self rotation in
  a t = d t /\ b t = - c t /\ tx t = 0 /\ ty t = 0 /\
  a t * d t - b t * c t = scale * scale /\
  a t * a t + b t * b t = scale * scale.
Proof.
  intros scale t. subst t.
  rewrite transformWithRotation_matrix. fold scale. simpl.
  pose proof (sin2_cos2 rotation) as H. unfold Rsqr in H.
  repeat split; try lra; nra.
Qed.

(** X19.  The zero-rotation transform is the pure scaling by what the
    calculator answers for rotation 0. *)
Theorem zero_rotation_is_pure_scale (self : RCTMotionManager) :
  let scale :=
    get_scaleWithDouble (_scaler self) (_viewWidth self) (_viewHeight self)
      (_videoWidth self) (_videoHeight self) 0 in
  getZeroRotationTransform self = CGAffineTransformMakeScale scale scale.
Proof.
  intros scale. unfold getZeroRotationTransform.
  rewrite transformWithRotation_matrix. fold scale.
  unfold CGAffineTransformMakeScale. rewrite cos_0, sin_0.
  f_equal; lra.
Qed.

(** ** The wrapper component *)

Lemma startsWith_cons (ch ch' : ascii) (p s : string) :
  startsWith (String ch p) (String ch' s) = Ascii.eqb ch ch' && startsWith p s.
Proof. reflexivity. Qed.

Lemma truthy_cons (ch : ascii) (s : string) : truthy (String ch s) = true.
Proof. reflexivity. Qed.

(** X20.  A source whose uri starts with a slash is rendered with
    [file://] put before it, and is then an asset and not a network
    source. *)
Theorem absolute_path_becomes_file_asset (source : AssetSource)
  (path : string) :
  source_uri source = Some (String "/" path) ->
  let src := renderSrc (Some source) in
  uri src = ("file:///" ++ path)%string /\
  isAsset src = true /\ isNetwork src = false.
Proof.
  intros H. unfold renderSrc. rewrite H. cbn [orEmpty].
  rewrite truthy_cons, startsWith_cons. cbn [startsWith andb].
  rewrite Ascii.eqb_refl. cbn [andb].
  split; [reflexivity | split; reflexivity].
Qed.

Lemma absolute_path_becomes_file_asset_witness :
  uri (renderSrc (Some {| source_uri := Some "/sdcard/clip.mp4"%string;
                          source_type := None;
                          source_mainVer := None;
                          source_patchVer := None |}))
  = "file:///sdcard/clip.mp4"%string.
Proof.
  apply (absolute_path_becomes_file_asset
           {| source_uri := Some "/sdcard/clip.mp4"%string;
              source_type := None;
              source_mainVer := None;
              source_patchVer := None |}
           "sdcard/clip.mp4"%string).
  reflexivity.
Defined.

(** X21.  No rendered source is both a network source and an asset. *)
Theorem network_and_asset_exclusive (resolved : option AssetSource) :
  isNetwork (renderSrc resolved) && isAsset (renderSrc resolved) = false.
Proof.
  unfold renderSrc.
  destruct resolved as [[[u |] ty mv pv] |]; try reflexivity.
  cbn [source_uri orEmpty isNetwork isAsset].
  destruct u as [| ch u]; [reflexivity |].
  rewrite truthy_cons, startsWith_cons. cbn [startsWith andb].
  rewrite andb_true_r.
  destruct (Ascii.eqb "/" ch) eqn:E; [reflexivity |].
  cbv beta iota.
  destruct (Ascii.eqb "h" ch) eqn:Eh; [| reflexivity].
  apply Ascii.eqb_eq in Eh. subst ch.
  apply andb_false_iff. right. reflexivity.
Qed.

(** X22.  When nothing is resolved, or the resolved source has no uri or
    an empty one, the rendered uri is empty and the source is neither a
    network source nor an asset. *)
Theorem missing_uri_defaults (resolved : option AssetSource) :
  match resolved with
  | Some source => orEmpty (source_uri source) = EmptyString
  | None => True
  end ->
  let src := renderSrc resolved in
  uri src = EmptyString /\ isNetwork src = false /\ isAsset src = false.
Proof.
  intros H. unfold renderSrc.
  destruct resolved as [source |].
  - rewrite H. split; [reflexivity | split; reflexivity].
  - split; [reflexivity | split; reflexivity].
Qed.

Lemma missing_uri_defaults_witness :
  uri (renderSrc (Some {| source_uri := None;
                          source_type := Some "mp4"%string;
                          source_mainVer := None;
                          source_patchVer := None |}))
  = EmptyString.
Proof.
  apply (missing_uri_defaults
           (Some {| source_uri := None;
                    source_type := Some "mp4"%string;
                    source_mainVer := None;
                    source_patchVer := None |})).
  reflexivity.
Defined.

(** X23.  Rendering is stable: a source given the uri that was rendered
    for it is rendered to the same [src] (no second [file://] is put
    before it). *)
Theorem rendered_uri_is_stable (source : AssetSource) :
  let src := renderSrc (Some source) in
  let again :=
    renderSrc (Some {| source_uri := Some (uri src);
                       source_type := source_type source;
                       source_mainVer := source_mainVer source;
                       source_patchVer := source_patchVer source |}) in
  again = src.
Proof.
  unfold renderSrc. cbn [source_uri source_type source_mainVer source_patchVer
                           orEmpty uri].
  destruct (source_uri source) as [[| ch rest] |]; try reflexivity.
  cbn [orEmpty]. rewrite truthy_cons, startsWith_cons. cbn [startsWith andb].
  rewrite andb_true_r.
  destruct (Ascii.eqb "/" ch) eqn:E.
  - reflexivity.
  - cbv beta iota. rewrite E. reflexivity.
Qed.

(** X24.  The poster is rendered exactly when a poster is given and,
    since the component was constructed, there was neither a seek event
    nor a playback-rate change to a rate other than 0; once hidden it
    never comes back. *)
Theorem poster_shown_until_hidden (poster : option string)
  (es : list NativeEvent) :
  rendersPoster poster (fold_left handleNativeEvent es constructorState)
  = truthy (orEmpty poster) && negb (existsb hidesPoster es).
Proof.
  unfold rendersPoster. f_equal.
  assert (G : forall state,
             showPoster (fold_left handleNativeEvent es state)
             = showPoster state && negb (existsb hidesPoster es)).
  { induction es as [| e es IH]; intros state; simpl.
    - rewrite andb_true_r. reflexivity.
    - rewrite IH. rewrite negb_orb, andb_assoc. f_equal.
      destruct e; simpl; unfold _onSeek, _onPlaybackRateChange;
        destruct (showPoster state) eqn:E; simpl; try reflexivity;
        try (rewrite E; reflexivity).
      destruct (Rneqb playbackRate 0); simpl; [reflexivity | exact E]. }
  rewrite G. reflexivity.
Qed.

(** ** Unlocking again before a sample comes *)


